(** * AI Data Analyst: a model of [ai-analyst-streamlit_app.py]

    The script loads a table, asks a hosted language model for a pandas
    expression, filters that text through a substring denylist, evaluates
    it against the table, renders the value and asks the model a second
    time for an explanation.

    The helper routines of the script are embedded as functions over an
    explicit world (the dataset object bound to [df] and a chronological
    log of remote calls, evaluations and emitted page elements).  What the
    script delegates to its host (the Python runtime, pandas, boto3 and
    Streamlit) is gathered in one record, [Runtime], so every statement
    about the script holds for any behaviour of the host. *)

From Stdlib Require Import Ascii String ZArith Lia Bool DecimalString.
From stdpp Require Import base list strings gmap.

Set Warnings "-register-all".

Local Open Scope Z_scope.
Local Open Scope nat_scope.

(** ** Python [str] operations used by the script

    A character of the model stands for one code point below 256. *)
Module PyStr.

(** [s.startswith(p)] *)
Fixpoint startswith (p s : string) : bool :=
  match p, s with
  | EmptyString, _ => true
  | String a p', String b s' => if Ascii.eqb a b then startswith p' s' else false
  | String _ _, EmptyString => false
  end.

(** [b in s] for two strings: [b] occurs in [s] at some offset. *)
Fixpoint contains (b s : string) : bool :=
  startswith b s ||
  match s with
  | EmptyString => false
  | String _ s' => contains b s'
  end.

(** [s[:n]] *)
Fixpoint take (n : nat) (s : string) : string :=
  match n, s with
  | S n', String a s' => String a (take n' s')
  | _, _ => EmptyString
  end.

(** [c.isspace()] on code points below 256: tab, line feed, vertical tab,
    form feed, carriage return, the four separators 28..31, space, NEL and
    the no-break space. *)
Definition isspace (c : ascii) : bool :=
  match nat_of_ascii c with
  | 9 | 10 | 11 | 12 | 13 | 28 | 29 | 30 | 31 | 32 | 133 | 160 => true
  | _ => false
  end.

Fixpoint all_space (s : string) : bool :=
  match s with
  | EmptyString => true
  | String c s' => isspace c && all_space s'
  end.

(** [s.lstrip()] *)
Fixpoint lstrip (s : string) : string :=
  match s with
  | EmptyString => EmptyString
  | String c s' => if isspace c then lstrip s' else s
  end.

(** [s.rstrip()] *)
Fixpoint rstrip (s : string) : string :=
  match s with
  | EmptyString => EmptyString
  | String c s' => if all_space s then EmptyString else String c (rstrip s')
  end.

(** [s.strip()] *)
Definition strip (s : string) : string := rstrip (lstrip s).

End PyStr.

(** ** Data model *)

(** A value stored in a table cell, also what a scalar result looks like. *)
Inductive scalar :=
| SInt (z : Z)
| SFloat (lit : string)
| SStr (s : string)
| SBool (b : bool)
| SNaN.

(** Column types as pandas infers them on load. *)
Inductive dtype := Int64 | Float64 | BoolT | Object | Datetime64.

(** [str(dtype)], the label produced by [df.dtypes.astype(str)]. *)
Definition dtype_str (t : dtype) : string :=
  match t with
  | Int64 => "int64"
  | Float64 => "float64"
  | BoolT => "bool"
  | Object => "object"
  | Datetime64 => "datetime64[ns]"
  end.

(** A [pd.DataFrame]: ordered column labels, one type per column, rows. *)
Record DataFrame := mkDataFrame {
  df_columns : list string;
  df_dtypes : list dtype;
  df_rows : list (list scalar);
}.

(** A [pd.Series]: an optional name, a type and its values. *)
Record Series := mkSeries {
  s_name : option string;
  s_dtype : dtype;
  s_values : list scalar;
}.

(** Lengths agree: a type per column and a cell per column in each row. *)
Definition wf_frame (d : DataFrame) : Prop :=
  length (df_dtypes d) = length (df_columns d) ∧
  Forall (λ r, length r = length (df_columns d)) (df_rows d).

(** Python objects that the evaluated expression can see or produce.
    [VDf] is the dataset object itself (the one bound to [df]); a table
    built by the expression is a [VFrame]. *)
Inductive value :=
| VNone
| VScalar (c : scalar)
| VList (l : list value)
| VSeries (s : Series)
| VFrame (f : DataFrame)
| VDf
| VBuiltin (name : string)
| VMethod (self : value) (name : string)
| VModule (name : string)
| VObject (tag : string).

(** Exception classes.  [except Exception] does not catch the classes
    that derive from [BaseException] only. *)
Inductive exn_class :=
| ValueError | KeyError | IndexError | TypeError | AttributeError
| NameError | SyntaxError | JSONDecodeError | ClientError
| OtherException (name : string)
| SystemExit | KeyboardInterrupt
| OtherBaseException (name : string).

Record exn := Exn { exn_cls : exn_class; exn_msg : string }.

(** [isinstance(e, Exception)] *)
Definition is_Exception (e : exn) : bool :=
  match exn_cls e with
  | SystemExit | KeyboardInterrupt | OtherBaseException _ => false
  | _ => true
  end.

(** JSON documents as [json.loads] returns them and [json.dumps] takes
    them; an object keeps its members in order. *)
Inductive json :=
| JNull
| JBool (b : bool)
| JInt (z : Z)
| JFloat (lit : string)
| JStr (s : string)
| JArr (l : list json)
| JObj (kv : list (string * json)).

(** What [st.bar_chart] is given. *)
Inductive chart :=
| ChartSeries (s : Series)
| ChartSetIndex (key : string) (f : DataFrame).

(** Page elements, one per Streamlit call of the analysis part. *)
Inductive element :=
| StDivider
| StSubheader (s : string)
| StSpinner (s : string)
| StExpander (label : string)
| StCode (body lang : string)
| StSuccess (s : string)
| StWrite (v : value)
| StBarChart (c : chart)
| StDataframe (f : DataFrame)
| StInfo (s : string)
| StError (s : string)
| StText (s : string).

(** What happens during a run, oldest first. *)
Inductive event :=
| EvInvoke (model_id : string) (body : json)
| EvEval (code : string)
| EvEmit (e : element).

(** What the evaluation of an expression can do besides computing a value
    and writing to the dataset: the expression runs with the builtins, so
    it can reach the client of the script and Streamlit. *)
Inductive effect :=
| FxInvoke (model_id : string) (body : json)
| FxEmit (e : element).

Definition event_of (fx : effect) : event :=
  match fx with
  | FxInvoke m b => EvInvoke m b
  | FxEmit e => EvEmit e
  end.

(** The world a run acts on: the dataset object and the log. *)
Record World := mkWorld {
  w_df : DataFrame;
  w_log : list event;
}.

(** The host of the script: Python runtime, pandas, boto3 and Streamlit. *)
Record Runtime := mkRuntime {
  (** [str(v)] *)
  py_str : value → string;
  (** the text an f-string inserts for a list of labels, a dict of labels
      and a list of records *)
  fmt_columns : list string → string;
  fmt_types : gmap string string → string;
  fmt_records : list (gmap string scalar) → string;
  (** [json.loads(bedrock.invoke_model(modelId=.., body=json.dumps(b))["body"].read())]
      for a request document [b], given what happened so far: the answer
      as a document, or what the call, the read or the decoding raised *)
  invoke_model : list event → string → json → exn + json;
  (** the content of the [builtins] module *)
  builtins : gmap string value;
  (** evaluation of an expression text, given how names resolve and the
      current dataset; returns the outcome and the dataset afterwards *)
  eval_expr : string → (string → option value) → DataFrame →
              (exn + value) * DataFrame;
  (** the remote invocations and the page elements that this evaluation
      causes on its way, in order, given the log so far *)
  eval_events : string → (string → option value) → DataFrame →
                list event → list effect;
  (** whether a Streamlit call raises instead of adding its element *)
  st_raises : element → option exn;
  (** [traceback.format_exc()] for the exception being handled *)
  format_exc : exn → string;
}.

(** ** Computations that may raise and that act on the world *)

Definition M (A : Type) : Type := World → (exn + A) * World.

Global Instance M_ret : MRet M := λ A x w, (inr x, w).

Global Instance M_bind : MBind M := λ A B f m w,
  match m w with
  | (inl e, w') => (inl e, w')
  | (inr a, w') => f a w'
  end.

(** [raise e] *)
Definition raise {A} (e : exn) : M A := λ w, (inl e, w).

(** A pure step that may raise. *)
Definition lift {A} (r : exn + A) : M A := λ w, (r, w).

(** Append one event to the log. *)
Definition record (ev : event) (w : World) : World :=
  mkWorld (w_df w) (w_log w ++ [ev]).

(** [try: body / except Exception: handler] *)
Definition try_except {A} (body : M A) (handler : exn → M A) : M A := λ w,
  match body w with
  | (inl e, w') => if is_Exception e then handler e w' else (inl e, w')
  | (inr a, w') => (inr a, w')
  end.

(** Number of remote-model invocations in a log. *)
Definition is_invoke (ev : event) : bool :=
  match ev with EvInvoke _ _ => true | _ => false end.

Definition invocations (w : World) : nat :=
  length (filter (λ ev, is_invoke ev = true) (w_log w)).

(** The evaluations and the page elements of a log, oldest first. *)
Definition evaluated (w : World) : list string :=
  omap (λ ev, match ev with EvEval c => Some c | _ => None end) (w_log w).

Definition page (w : World) : list element :=
  omap (λ ev, match ev with EvEmit e => Some e | _ => None end) (w_log w).

(** ** Python containers *)

(** A dict filled by successive assignments: a later key overwrites. *)
Definition assign {V} (m : gmap string V) (p : string * V) : gmap string V :=
  <[p.1 := p.2]> m.

Definition py_dict {V} (kv : list (string * V)) : gmap string V :=
  foldl assign ∅ kv.

(** [obj[key]] on a loaded JSON document, with a string key. *)
Fixpoint obj_get (key : string) (kv : list (string * json)) : option json :=
  match kv with
  | [] => None
  | (k, v) :: rest =>
      match obj_get key rest with
      | Some v' => Some v'
      | None => if String.eqb k key then Some v else None
      end
  end.

Definition getitem_key (v : json) (key : string) : exn + json :=
  match v with
  | JObj kv =>
      match obj_get key kv with
      | Some x => inr x
      | None => inl (Exn KeyError key)
      end
  | JArr _ => inl (Exn TypeError "list indices must be integers or slices, not str")
  | JStr _ => inl (Exn TypeError "string indices must be integers")
  | _ => inl (Exn TypeError "object is not subscriptable")
  end.

(** [obj[0]] *)
Definition getitem_0 (v : json) : exn + json :=
  match v with
  | JArr (x :: _) => inr x
  | JArr [] => inl (Exn IndexError "list index out of range")
  | JStr (String c _) => inr (JStr (String c EmptyString))
  | JStr EmptyString => inl (Exn IndexError "string index out of range")
  | JObj _ => inl (Exn KeyError "0")
  | _ => inl (Exn TypeError "object is not subscriptable")
  end.

(** [obj.strip()] *)
Definition call_strip (v : json) : exn + string :=
  match v with
  | JStr s => inr (PyStr.strip s)
  | _ => inl (Exn AttributeError "object has no attribute 'strip'")
  end.

(** Sequencing of pure steps that may raise. *)
Definition and_then {A B} (r : exn + A) (f : A → exn + B) : exn + B :=
  match r with
  | inl e => inl e
  | inr a => f a
  end.

(** [response_body["content"][0]["text"].strip()] *)
Definition read_answer (response_body : json) : exn + string :=
  and_then (getitem_key response_body "content") (λ content,
  and_then (getitem_0 content) (λ segment,
  and_then (getitem_key segment "text") call_strip)).

(** ** The script *)

Definition MODEL_ID : string := "anthropic.claude-3-sonnet-20240229-v1:0".

(** The dict returned by [get_schema]. *)
Record Schema := mkSchema {
  columns : list string;
  types : gmap string string;
  sample_rows : list (gmap string scalar);
}.

(** [df.head(n)] *)
Definition head (n : nat) (d : DataFrame) : DataFrame :=
  mkDataFrame (df_columns d) (df_dtypes d) (take n (df_rows d)).

(** [df.to_dict(orient="records")] *)
Definition to_records (d : DataFrame) : list (gmap string scalar) :=
  (λ r, py_dict (zip (df_columns d) r)) <$> df_rows d.

(** [df.dtypes.astype(str).to_dict()] *)
Definition dtypes_to_dict (d : DataFrame) : gmap string string :=
  py_dict (zip (df_columns d) (dtype_str <$> df_dtypes d)).

Definition get_schema (df : DataFrame) : Schema :=
  {| columns := df_columns df;
     types := dtypes_to_dict df;
     sample_rows := to_records (head 5 df) |}.

Definition dquote : string := String (ascii_of_nat 34) EmptyString.

(** The denylist of [safe_execute]. *)
Definition banned : list string :=
  ["import"; "os."; "open("; "exec"; "eval"; "__"; "sys."].

(** [any(b in code for b in banned)] *)
Definition any_banned (code : string) : bool :=
  existsb (λ b, PyStr.contains b code) banned.

(** The globals dict that [safe_execute] hands to [eval]. *)
Definition safe_globals : gmap string value := {[ "df" := VDf ]}.

(** [eval] adds the namespace of the builtins module to a globals dict
    that has no [__builtins__] entry. *)
Definition eval_globals (g : gmap string value) : gmap string value :=
  match g !! "__builtins__" with
  | Some _ => g
  | None => <["__builtins__" := VModule "builtins"]> g
  end.

(** The request dict of [call_bedrock]. *)
Definition request_body (prompt : string) : json :=
  JObj [("anthropic_version", JStr "bedrock-2023-05-31");
        ("max_tokens", JInt 300);
        ("temperature", JInt 0);
        ("messages", JArr [JObj [("role", JStr "user");
                                 ("content", JStr prompt)]])].

(** A result that is the dataset object shows the dataset as it is then. *)
Definition snapshot (d : DataFrame) (v : value) : value :=
  match v with VDf => VFrame d | _ => v end.

(** [isinstance(v, pd.DataFrame)], with the table. *)
Definition as_frame (d : DataFrame) (v : value) : option DataFrame :=
  match v with
  | VFrame f => Some f
  | VDf => Some d
  | _ => None
  end.

(** How many columns carry the label [key]. *)
Definition occurrences (key : string) (cols : list string) : nat :=
  length (filter (λ c, c = key) cols).

(** [frame.set_index(key)] as the argument of [st.bar_chart]: the frame
    keyed by its column [key].  It raises when no column has that label,
    and when several have it. *)
Definition set_index (key : string) (f : DataFrame) : exn + chart :=
  match occurrences key (df_columns f) with
  | 0 => inl (Exn KeyError key)
  | 1 => inr (ChartSetIndex key f)
  | _ => inl (Exn ValueError "Index data must be 1-dimensional")
  end.

(** Python truth value of a string. *)
Definition nonempty (s : string) : bool :=
  match s with EmptyString => false | _ => true end.

(** The text of the explanation request up to the result slot. *)
Definition explain_intro (question : string) : string :=
  "
Explain the following analysis result in simple business language.

Question:
" +:+ question +:+ "

Result:
".

Definition newline : string := String (ascii_of_nat 10) EmptyString.

(** The text of the explanation request, given [str(result)]: the
    template with [question] and [str(result)[:1000]] filled in. *)
Definition explain_prompt (question result_str : string) : string :=
  explain_intro question +:+ PyStr.take 1000 result_str +:+ newline.

Section Script.

Context (rt : Runtime).

(** Name lookup inside [eval]: the globals dict, then the builtins. *)
Definition load_name (g : gmap string value) (name : string) : option value :=
  match g !! name with
  | Some v => Some v
  | None =>
      match g !! "__builtins__" with
      | Some (VModule _) => builtins rt !! name
      | _ => None
      end
  end.

(** [eval(code, globals)] *)
Definition py_eval (code : string) (globals : gmap string value) : M value :=
  λ w,
    let g := eval_globals globals in
    let '(r, d') := eval_expr rt code (load_name g) (w_df w) in
    let evs := eval_events rt code (load_name g) (w_df w) (w_log w) in
    (r, mkWorld d' (w_log w ++ EvEval code :: (event_of <$> evs))).

(** A Streamlit call: raises, or adds its element to the page. *)
Definition st (e : element) : M unit := λ w,
  match st_raises rt e with
  | Some x => (inl x, w)
  | None => (inr tt, record (EvEmit e) w)
  end.

(** [st.write(v)] *)
Definition st_write (v : value) : M unit := λ w,
  st (StWrite (snapshot (w_df w) v)) w.

(** One remote invocation: the request goes out, then the answer (or
    the exception) comes back. *)
Definition bedrock_invoke (model_id : string) (body : json) : M json := λ w,
  (invoke_model rt (w_log w) model_id body, record (EvInvoke model_id body) w).

Definition build_prompt (schema : Schema) (question : string) : string :=
  "
You are a senior data analyst.

Dataframe schema:
Columns: " +:+ fmt_columns rt (columns schema) +:+ "
Types: " +:+ fmt_types rt (types schema) +:+ "
Sample rows: " +:+ fmt_records rt (sample_rows schema) +:+ "

User question:
" +:+ dquote +:+ question +:+ dquote +:+ "

Rules:
- Use pandas only
- The dataframe variable is named df
- Do NOT modify df
- Do NOT import anything
- Return ONLY a single pandas expression
".

Definition call_bedrock (prompt : string) : M string :=
  let body := request_body prompt in
  response_body ← bedrock_invoke MODEL_ID body;
  lift (read_answer response_body).

Definition safe_execute (code : string) : M value :=
  if any_banned code
  then raise (Exn ValueError "Unsafe code detected")
  else py_eval code safe_globals.

Definition auto_visualize (result : value) : M unit := λ w,
  match result with
  | VSeries s => st (StBarChart (ChartSeries s)) w
  | _ =>
      match as_frame (w_df w) result with
      | Some f =>
          if length (df_columns f) =? 2
          then match df_columns f !! 0 with
               | Some c =>
                   match set_index c f with
                   | inl e => raise e w
                   | inr indexed => st (StBarChart indexed) w
                   end
               | None => raise (Exn IndexError "index 0 is out of bounds") w
               end
          else st (StDataframe f) w
      | None => st_write result w
      end
  end.

Definition explain_result (question : string) (result : value) : M string :=
  λ w,
    let prompt :=
      explain_prompt question (py_str rt (snapshot (w_df w) result)) in
    call_bedrock prompt w.

(** The suite of the [try] statement. *)
Definition analysis_body (question prompt : string) : M unit :=
  ai_code ← call_bedrock prompt;
  st (StExpander "🧠 AI-Generated Pandas Code");;
  st (StCode ai_code "python");;
  result ← safe_execute ai_code;
  st (StSuccess "Analysis completed!");;
  st_write (VScalar (SStr "### Result"));;
  st_write result;;
  st_write (VScalar (SStr "### Visualization"));;
  auto_visualize result;;
  st_write (VScalar (SStr "### 🗣 Explanation"));;
  explanation ← explain_result question result;
  st (StInfo explanation).

(** Stages of the suite, for the statements: from the first remote call
    to the value of the expression; the display of that value; the rest
    of the suite once the value is known. *)
Definition generate_and_evaluate (prompt : string) : M value :=
  ai_code ← call_bedrock prompt;
  st (StExpander "🧠 AI-Generated Pandas Code");;
  st (StCode ai_code "python");;
  safe_execute ai_code.

Definition show_result (result : value) : M unit :=
  st (StSuccess "Analysis completed!");;
  st_write (VScalar (SStr "### Result"));;
  st_write result;;
  st_write (VScalar (SStr "### Visualization"));;
  auto_visualize result;;
  st_write (VScalar (SStr "### 🗣 Explanation")).

Definition present (question : string) (result : value) : M unit :=
  show_result result;;
  explanation ← explain_result question result;
  st (StInfo explanation).

(** The suite of [except Exception]. *)
Definition on_error (e : exn) : M unit :=
  st (StError "Something went wrong.");;
  st (StText (format_exc rt e)).

(** The [try] statement of the analysis. *)
Definition analysis_try (question prompt : string) : M unit :=
  try_except (analysis_body question prompt) on_error.

(** The analysis handler: what runs when the button is pressed with a
    question. *)
Definition run_analysis (schema : Schema) (question : string) : M unit :=
  st StDivider;;
  st (StSubheader "🔍 Analysis");;
  let prompt := build_prompt schema question in
  st (StSpinner "Thinking with AWS Bedrock...");;
  analysis_try question prompt.

(** The script from the loaded dataset on, for the question typed and
    the state of the button: schema, preview, handler under its guard,
    debug panel. *)
Definition script (run_btn : bool) (question : string) : M unit := λ w,
  let schema := get_schema (w_df w) in
  (st (StSubheader "📄 Dataset Preview");;
   st (StDataframe (w_df w));;
   st (StSubheader "🤖 AI Assistant");;
   (if run_btn && nonempty question
    then run_analysis schema question
    else mret tt);;
   st (StExpander "⚙️ Debug Prompt");;
   st (StCode (build_prompt schema
                 (if nonempty question then question else EmptyString))
              "python")) w.

End Script.

(** ** A fragment of Python and pandas, to run the script on examples

    Expressions of the form [atom trailer*], where an atom is a name or a
    single-quoted string, and a trailer is [.name], [()], [(atom)] or
    [[atom]].  The operations are: name lookup, [len(x)], [df[label]],
    [series.sum()] on integers and [df.pop(label)], which removes the
    column from the dataset object and returns it.  An expression outside
    the fragment has no result here ([None]). *)
Module Fragment.

Inductive token :=
| TName (s : string)
| TStr (s : string)
| TDot | TLPar | TRPar | TLBrack | TRBrack
| TBad.

Inductive lex_state := LIdle | LName (buf : string) | LStr (buf : string).

Definition is_ident_start (c : ascii) : bool :=
  let n := nat_of_ascii c in
  ((65 <=? n) && (n <=? 90)) || ((97 <=? n) && (n <=? 122)) || (n =? 95).

Definition is_ident_char (c : ascii) : bool :=
  let n := nat_of_ascii c in
  is_ident_start c || ((48 <=? n) && (n <=? 57)).

Definition snoc (s : string) (c : ascii) : string :=
  s +:+ String c EmptyString.

Definition punct (c : ascii) : token :=
  match nat_of_ascii c with
  | 46 => TDot
  | 40 => TLPar
  | 41 => TRPar
  | 91 => TLBrack
  | 93 => TRBrack
  | _ => TBad
  end.

Definition idle_step (c : ascii) : list token * lex_state :=
  if is_ident_start c then ([], LName (String c EmptyString))
  else if nat_of_ascii c =? 39 then ([], LStr EmptyString)
  else if nat_of_ascii c =? 32 then ([], LIdle)
  else ([punct c], LIdle).

Fixpoint lex (st : lex_state) (s : string) : list token :=
  match s with
  | EmptyString =>
      match st with
      | LIdle => []
      | LName b => [TName b]
      | LStr _ => [TBad]
      end
  | String c s' =>
      let '(out, st') :=
        match st with
        | LStr b =>
            if nat_of_ascii c =? 39 then ([TStr b], LIdle)
            else if nat_of_ascii c =? 92 then ([TBad], LIdle)
            else ([], LStr (snoc b c))
        | LName b =>
            if is_ident_char c then ([], LName (snoc b c))
            else let '(o, st2) := idle_step c in (TName b :: o, st2)
        | LIdle => idle_step c
        end in
      out ++ lex st' s'
  end.

Definition keywords : list string :=
  ["False"; "None"; "True"; "and"; "as"; "assert"; "async"; "await";
   "break"; "class"; "continue"; "def"; "del"; "elif"; "else"; "except";
   "finally"; "for"; "from"; "global"; "if"; "import"; "in"; "is";
   "lambda"; "nonlocal"; "not"; "or"; "pass"; "raise"; "return"; "try";
   "while"; "with"; "yield"].

Definition is_keyword (n : string) : bool :=
  existsb (String.eqb n) keywords.

Inductive atom := AName (n : string) | AStr (s : string).

Inductive trailer :=
| TrAttr (n : string)
| TrCall (arg : option atom)
| TrItem (a : atom).

Definition atom_of (t : token) : option atom :=
  match t with
  | TName n => if is_keyword n then None else Some (AName n)
  | TStr s => Some (AStr s)
  | _ => None
  end.

Fixpoint parse_trailers (ts : list token) : option (list trailer) :=
  match ts with
  | [] => Some []
  | TDot :: TName n :: r =>
      if is_keyword n then None
      else cons (TrAttr n) <$> parse_trailers r
  | TLPar :: TRPar :: r => cons (TrCall None) <$> parse_trailers r
  | TLPar :: a :: TRPar :: r =>
      match atom_of a with
      | Some x => cons (TrCall (Some x)) <$> parse_trailers r
      | None => None
      end
  | TLBrack :: a :: TRBrack :: r =>
      match atom_of a with
      | Some x => cons (TrItem x) <$> parse_trailers r
      | None => None
      end
  | _ => None
  end.

Definition parse (code : string) : option (atom * list trailer) :=
  match lex LIdle code with
  | t :: ts =>
      match atom_of t, parse_trailers ts with
      | Some a, Some tr => Some (a, tr)
      | _, _ => None
      end
  | [] => None
  end.

(** Positions of a label among the columns. *)
Fixpoint positions (c : string) (cols : list string) (i : nat) : list nat :=
  match cols with
  | [] => []
  | x :: r => (if String.eqb x c then [i] else []) ++ positions c r (S i)
  end.

(** The column at position [i], as a series named [c]. *)
Definition column_at (c : string) (i : nat) (d : DataFrame) : Series :=
  mkSeries (Some c) (default Object (df_dtypes d !! i))
           ((λ r, default SNaN (r !! i)) <$> df_rows d).

(** The table without the column at position [i]. *)
Definition drop_at (i : nat) (d : DataFrame) : DataFrame :=
  mkDataFrame (delete i (df_columns d)) (delete i (df_dtypes d))
              (delete i <$> df_rows d).

(** Arithmetic of an [int64] column: sums wrap around. *)
Definition wrap64 (z : Z) : Z :=
  ((z + 2 ^ 63) mod 2 ^ 64 - 2 ^ 63)%Z.

Fixpoint sum_ints (l : list scalar) : option Z :=
  match l with
  | [] => Some 0%Z
  | SInt z :: r => (λ s, wrap64 (z + s)) <$> sum_ints r
  | _ => None
  end.

Definition outcome : Type := option ((exn + value) * DataFrame).

Definition eval_atom (resolve : string → option value) (a : atom)
  : exn + value :=
  match a with
  | AName n =>
      match resolve n with
      | Some v => inr v
      | None => inl (Exn NameError n)
      end
  | AStr s => inr (VScalar (SStr s))
  end.

(** [len(v)] *)
Definition py_len (v : value) (d : DataFrame) : option nat :=
  match v with
  | VDf => Some (length (df_rows d))
  | VFrame f => Some (length (df_rows f))
  | VSeries s => Some (length (s_values s))
  | VList l => Some (length l)
  | VScalar (SStr s) => Some (String.length s)
  | _ => None
  end.

(** [frame[label]] for a label that occurs at most once. *)
Definition getitem_label (f : DataFrame) (c : string) : option (exn + value) :=
  match positions c (df_columns f) 0 with
  | [] => Some (inl (Exn KeyError c))
  | [i] => Some (inr (VSeries (column_at c i f)))
  | _ => None
  end.

(** [df.pop(label)] on the dataset object, for a label that occurs at
    most once: the column leaves the dataset and is returned. *)
Definition pop (d : DataFrame) (c : string) : outcome :=
  match positions c (df_columns d) 0 with
  | [] => Some (inl (Exn KeyError c), d)
  | [i] => Some (inr (VSeries (column_at c i d)), drop_at i d)
  | _ => None
  end.

Definition apply_trailer (resolve : string → option value)
    (v : value) (t : trailer) (d : DataFrame) : outcome :=
  match t, v with
  | TrAttr n, VDf =>
      if String.eqb n "pop" then Some (inr (VMethod VDf n), d) else None
  | TrAttr n, VSeries _ =>
      if String.eqb n "sum" then Some (inr (VMethod v n), d) else None
  | TrItem a, (VDf | VFrame _) =>
      match eval_atom resolve a, as_frame d v with
      | inl e, _ => Some (inl e, d)
      | inr (VScalar (SStr c)), Some f =>
          (λ r, (r, d)) <$> getitem_label f c
      | _, _ => None
      end
  | TrCall (Some a), VBuiltin b =>
      if String.eqb b "len" then
        match eval_atom resolve a with
        | inl e => Some (inl e, d)
        | inr x => (λ n, (inr (VScalar (SInt (Z.of_nat n))), d)) <$> py_len x d
        end
      else None
  | TrCall (Some a), VMethod VDf m =>
      if String.eqb m "pop" then
        match eval_atom resolve a with
        | inl e => Some (inl e, d)
        | inr (VScalar (SStr c)) => pop d c
        | inr _ => None
        end
      else None
  | TrCall None, VMethod (VSeries s) m =>
      if String.eqb m "sum"
      then (λ z, (inr (VScalar (SInt z)), d)) <$> sum_ints (s_values s)
      else None
  | _, _ => None
  end.

Fixpoint eval_trailers (resolve : string → option value)
    (v : value) (ts : list trailer) (d : DataFrame) : outcome :=
  match ts with
  | [] => Some (inr v, d)
  | t :: r =>
      match apply_trailer resolve v t d with
      | Some (inr v', d') => eval_trailers resolve v' r d'
      | other => other
      end
  end.

(** Evaluation of an expression of the fragment. *)
Definition eval (code : string) (resolve : string → option value)
    (d : DataFrame) : outcome :=
  match parse code with
  | Some (a, ts) =>
      match eval_atom resolve a with
      | inl e => Some (inl e, d)
      | inr v => eval_trailers resolve v ts d
      end
  | None => None
  end.

End Fragment.

(** ** A small host, to run the script on examples

    Names resolve to the built-in functions of Python, expressions are
    evaluated by [Fragment.eval] (whose operations invoke nothing and add
    nothing to the page), Streamlit calls never raise, and the
    remote model gives the answers of a fixed list, one per invocation.
    The texts this host inserts into prompts are abbreviations. *)
Module Demo.

Definition builtin_functions : list string :=
  ["abs"; "aiter"; "all"; "anext"; "any"; "ascii"; "bin"; "bool";
   "breakpoint"; "bytearray"; "bytes"; "callable"; "chr"; "classmethod";
   "compile"; "complex"; "delattr"; "dict"; "dir"; "divmod"; "enumerate";
   "eval"; "exec"; "filter"; "float"; "format"; "frozenset"; "getattr";
   "globals"; "hasattr"; "hash"; "help"; "hex"; "id"; "input"; "int";
   "isinstance"; "issubclass"; "iter"; "len"; "list"; "locals"; "map";
   "max"; "memoryview"; "min"; "next"; "object"; "oct"; "open"; "ord";
   "pow"; "print"; "property"; "range"; "repr"; "reversed"; "round";
   "set"; "setattr"; "slice"; "sorted"; "staticmethod"; "str"; "sum";
   "super"; "tuple"; "type"; "vars"; "zip"; "__import__"].

Definition builtin_table : gmap string value :=
  list_to_map ((λ n, (n, VBuiltin n)) <$> builtin_functions).

Definition str (v : value) : string :=
  match v with
  | VNone => "None"
  | VScalar (SInt z) => NilZero.string_of_int (Z.to_int z)
  | VScalar (SFloat lit) => lit
  | VScalar (SStr s) => s
  | VScalar (SBool true) => "True"
  | VScalar (SBool false) => "False"
  | VScalar SNaN => "nan"
  | _ => "<object>"
  end.

(** The shape of an answer of the model endpoint holding one text. *)
Definition text_answer (s : string) : json :=
  JObj [("type", JStr "message");
        ("role", JStr "assistant");
        ("content", JArr [JObj [("type", JStr "text"); ("text", JStr s)]])].

Definition answer (answers : list (exn + json)) (log : list event)
  : exn + json :=
  default (inl (Exn ClientError "no answer"))
          (answers !! length (filter (λ ev, is_invoke ev = true) log)).

Definition eval (code : string) (resolve : string → option value)
    (d : DataFrame) : (exn + value) * DataFrame :=
  default (inl (Exn SyntaxError "outside the fragment"), d)
          (Fragment.eval code resolve d).

Definition host (answers : list (exn + json)) : Runtime :=
  {| py_str := str;
     fmt_columns := λ _, "[..]";
     fmt_types := λ _, "{..}";
     fmt_records := λ _, "[..]";
     invoke_model := λ log _ _, answer answers log;
     builtins := builtin_table;
     eval_expr := eval;
     eval_events := λ _ _ _ _, [];
     st_raises := λ _, None;
     format_exc := λ e, "Traceback (most recent call last): " +:+ exn_msg e |}.

(** A text outside the fragment that passes the denylist: it takes
    [__import__] out of the builtins that [eval] put into its globals,
    gets the module of the script with it, and calls the client of the
    script with a request of its own.  Its value is the answer of the
    endpoint, a dict. *)
Definition reach_text : string :=
  "(lambda m: m.bedrock.invoke_model(modelId=m.MODEL_ID, body=m.json.dumps({'anthropic_version': 'bedrock-2023-05-31', 'max_tokens': 1, 'messages': [{'role': 'user', 'content': 'hi'}]})))(globals()['_'+'_builtins_'+'_']['_'+'_imp'+'ort_'+'_']('_'+'_main_'+'_'))".

Definition reach_body : json :=
  JObj [("anthropic_version", JStr "bedrock-2023-05-31");
        ("max_tokens", JInt 1);
        ("messages", JArr [JObj [("role", JStr "user");
                                 ("content", JStr "hi")]])].

Definition reaching_eval (code : string) (resolve : string → option value)
    (d : DataFrame) : (exn + value) * DataFrame :=
  if String.eqb code reach_text
  then (inr (VObject "dict"), d)
  else eval code resolve d.

Definition reaching_events (code : string) (resolve : string → option value)
    (d : DataFrame) (log : list event) : list effect :=
  if String.eqb code reach_text then [FxInvoke MODEL_ID reach_body] else [].

(** The host of the examples, with that text added to what it evaluates. *)
Definition reaching_host (answers : list (exn + json)) : Runtime :=
  {| py_str := str;
     fmt_columns := λ _, "[..]";
     fmt_types := λ _, "{..}";
     fmt_records := λ _, "[..]";
     invoke_model := λ log _ _, answer answers log;
     builtins := builtin_table;
     eval_expr := reaching_eval;
     eval_events := reaching_events;
     st_raises := λ _, None;
     format_exc := λ e, "Traceback (most recent call last): " +:+ exn_msg e |}.

(** The model answers with that text, then answers the request made by
    the evaluation, then gives an explanation. *)
Definition reach_answers : list (exn + json) :=
  [inr (text_answer reach_text);
   inr (text_answer "Hello.");
   inr (text_answer "The result is an answer of the model.")].

(** The table of the examples: three regions and their revenue. *)
Definition sales : DataFrame :=
  mkDataFrame ["region"; "revenue"] [Object; Int64]
    [[SStr "north"; SInt 10]; [SStr "south"; SInt 20]; [SStr "east"; SInt 30]].

Definition start : World := mkWorld sales [].

(** What [df[['revenue', 'revenue']]] selects from that table: the
    revenue column, twice. *)
Definition revenue_twice : DataFrame :=
  mkDataFrame ["revenue"; "revenue"] [Int64; Int64]
    [[SInt 10; SInt 10]; [SInt 20; SInt 20]; [SInt 30; SInt 30]].

Definition timeout : exn := Exn ClientError "Read timeout on endpoint".

(** The model answers with an expression that takes a column out, then
    with an explanation. *)
Definition pop_answers : list (exn + json) :=
  [inr (text_answer "df.pop('revenue')");
   inr (text_answer "Revenue is the only numeric column.")].

(** The model answers with a sum, then the second invocation fails. *)
Definition sum_then_timeout : list (exn + json) :=
  [inr (text_answer "df['revenue'].sum()"); inl timeout].

(** The model answers with a sum, then with an explanation. *)
Definition sum_answers : list (exn + json) :=
  [inr (text_answer "df['revenue'].sum()");
   inr (text_answer "Total revenue is 60.")].

(** The model answers with an expression that the denylist rejects. *)
Definition unsafe_answers : list (exn + json) :=
  [inr (text_answer "df.columns.__len__()");
   inr (text_answer "There are two columns.")].

End Demo.

(** ** Vocabulary of the statements *)

(** [b] occurs in [s] as a substring. *)
Definition occurs (b s : string) : Prop :=
  ∃ pre post, s = pre +:+ b +:+ post.

(** [code] contains one of the denylisted substrings. *)
Definition has_banned (code : string) : Prop :=
  ∃ b, b ∈ banned ∧ occurs b code.

(** The exception of a rejected expression. *)
Definition unsafe : exn := Exn ValueError "Unsafe code detected".

(** The statement that nothing but [df] resolves inside [eval]. *)
Definition only_df_resolvable (rt : Runtime) : Prop :=
  ∀ name, is_Some (load_name rt (eval_globals safe_globals) name) →
          name = "df".

(** The rendering rule in the words of the specification: a series is a
    bar chart, a table of exactly two columns is a bar chart keyed by its
    first column, any other table is shown raw, anything else is written
    as text. *)
Definition table_rule (f : DataFrame) : element :=
  match df_columns f with
  | [key; _] => StBarChart (ChartSetIndex key f)
  | _ => StDataframe f
  end.

Definition render_rule (d : DataFrame) (v : value) : element :=
  match v with
  | VSeries s => StBarChart (ChartSeries s)
  | VFrame f => table_rule f
  | VDf => table_rule d
  | _ => StWrite v
  end.

(** The statement that no run of the script changes the dataset. *)
Definition dataset_immutable (rt : Runtime) : Prop :=
  ∀ run_btn question w, w_df (snd (script rt run_btn question w)) = w_df w.

(** A computation that leaves the dataset as it is. *)
Definition keeps_df {A} (m : M A) : Prop :=
  ∀ w, w_df (snd (m w)) = w_df w.

(** A computation after which the dataset is the one it started with, or
    the one left by evaluating an accepted expression on it. *)
Definition df_by_eval (rt : Runtime) {A} (m : M A) : Prop :=
  ∀ w, w_df (snd (m w)) = w_df w ∨
       ∃ code, ¬ has_banned code ∧
               w_df (snd (m w))
               = snd (eval_expr rt code
                        (load_name rt (eval_globals safe_globals)) (w_df w)).

(** A computation that makes between [lo] and [hi] remote invocations,
    and [hi] of them when it returns normally. *)
Definition counts {A} (lo hi : nat) (m : M A) : Prop :=
  ∀ w, invocations w + lo ≤ invocations (snd (m w)) ≤ invocations w + hi ∧
       (∀ a, fst (m w) = inr a →
             invocations (snd (m w)) = invocations w + hi).

(** A computation that only adds to the page. *)
Definition page_grows {A} (m : M A) : Prop :=
  ∀ w, ∃ els, page (snd (m w)) = page w ++ els.

(** A computation that makes at most [k] remote invocations. *)
Definition at_most {A} (k : nat) (m : M A) : Prop :=
  ∀ w, invocations w ≤ invocations (snd (m w)) ≤ invocations w + k.

(** The statement that a failure of the explanation request takes the
    computed result off the page: nothing written since the run began
    shows it. *)
Definition explanation_failure_hides_result (rt : Runtime) : Prop :=
  ∀ question prompt w result w1 w2 e w3,
    generate_and_evaluate rt prompt w = (inr result, w1) →
    show_result rt result w1 = (inr tt, w2) →
    explain_result rt question result w2 = (inl e, w3) →
    StWrite (snapshot (w_df w1) result)
    ∉ drop (length (page w)) (page (snd (analysis_try rt question prompt w))).

(** What [show_result] puts on the page. *)
Definition result_elements (d : DataFrame) (result : value) : list element :=
  [StSuccess "Analysis completed!";
   StWrite (VScalar (SStr "### Result"));
   StWrite (snapshot d result);
   StWrite (VScalar (SStr "### Visualization"));
   render_rule d result;
   StWrite (VScalar (SStr "### 🗣 Explanation"))].

(** ** Loading the uploaded file *)

(** [s[n:]] *)
Fixpoint str_drop (n : nat) (s : string) : string :=
  match n, s with
  | S n', String _ s' => str_drop n' s'
  | _, _ => s
  end.

(** [s.endswith(suffix)] *)
Definition endswith (suffix s : string) : bool :=
  (String.length suffix <=? String.length s) &&
  String.eqb (str_drop (String.length s - String.length suffix) s) suffix.

(** What [st.file_uploader] returns once a file is chosen. *)
Record UploadedFile := mkUploadedFile {
  name : string;
  payload : string;
}.

(** The two pandas readers. *)
Record Pandas := mkPandas {
  read_csv : UploadedFile → exn + DataFrame;
  read_excel : UploadedFile → exn + DataFrame;
}.

Definition load_file (pd : Pandas) (uploaded_file : UploadedFile)
  : exn + DataFrame :=
  if endswith ".csv" (name uploaded_file)
  then read_csv pd uploaded_file
  else read_excel pd uploaded_file.

(** ** More vocabulary *)

(** The bodies of the remote invocations of a log, oldest first. *)
Definition requests (w : World) : list json :=
  omap (λ ev, match ev with EvInvoke _ b => Some b | _ => None end) (w_log w).

(** A computation that leaves the dataset as it is and whose only events
    are page elements. *)
Definition emits_only {A} (m : M A) : Prop :=
  ∀ w, w_df (snd (m w)) = w_df w ∧
       ∃ els, w_log (snd (m w)) = w_log w ++ (EvEmit <$> els).

(** A string without white space at either end. *)
Definition trimmed (s : string) : Prop :=
  (∀ c t, s = String c t → PyStr.isspace c = false) ∧
  (∀ t c, s = t +:+ String c EmptyString → PyStr.isspace c = false).

(** The elements of the error suite. *)
Definition error_elements (rt : Runtime) (e : exn) : list element :=
  [StError "Something went wrong."; StText (format_exc rt e)].

(** The parts of the query prompt before and after the quoted question. *)
Definition prompt_head (rt : Runtime) (schema : Schema) : string :=
  "
You are a senior data analyst.

Dataframe schema:
Columns: " +:+ fmt_columns rt (columns schema) +:+ "
Types: " +:+ fmt_types rt (types schema) +:+ "
Sample rows: " +:+ fmt_records rt (sample_rows schema) +:+ "

User question:
".

Definition prompt_rules : string :=
  "

Rules:
- Use pandas only
- The dataframe variable is named df
- Do NOT modify df
- Do NOT import anything
- Return ONLY a single pandas expression
".

(** A computation that sends exactly the requests [l], whatever its
    outcome. *)
Definition sends {A} (l : list json) (m : M A) : Prop :=
  ∀ w, requests (snd (m w)) = requests w ++ l.

(** The remote invocations among the effects of an evaluation. *)
Definition fx_invocations (l : list effect) : nat :=
  length (filter (λ ev, is_invoke ev = true) (event_of <$> l)).

(** A host on which no evaluated expression invokes the model itself. *)
Definition eval_invokes_nothing (rt : Runtime) : Prop :=
  ∀ code resolve d log, fx_invocations (eval_events rt code resolve d log) = 0.

(** The result is a table of two columns that carry the same label. *)
Definition first_label_repeated (d : DataFrame) (v : value) : Prop :=
  ∃ f c, as_frame d v = Some f ∧ df_columns f = [c; c].

(** The statement that every result is rendered as the rendering rule
    says. *)
Definition renders_by_rule (rt : Runtime) : Prop :=
  ∀ result w,
    auto_visualize rt result w = st rt (render_rule (w_df w) result) w.

(** The statement that the [try] statement of the handler never makes
    more than two remote invocations. *)
Definition at_most_two_invocations (rt : Runtime) : Prop :=
  ∀ question prompt w,
    invocations (snd (analysis_try rt question prompt w))
    ≤ invocations w + 2.

(** The three Streamlit calls that open the handler do not raise. *)
Definition handler_opens (rt : Runtime) : Prop :=
  st_raises rt StDivider = None ∧
  st_raises rt (StSubheader "🔍 Analysis") = None ∧
  st_raises rt (StSpinner "Thinking with AWS Bedrock...") = None.

(** The world in which the [try] statement of the handler starts. *)
Definition opened (w : World) : World :=
  record (EvEmit (StSpinner "Thinking with AWS Bedrock..."))
    (record (EvEmit (StSubheader "🔍 Analysis"))
       (record (EvEmit StDivider) w)).

(** * Properties *)

(** ** Strings *)

Lemma str_app_nil_l (s : string) : EmptyString +:+ s = s.
Proof. reflexivity. Qed.

Lemma str_app_cons (a : ascii) (s t : string) :
  String a s +:+ t = String a (s +:+ t).
Proof. reflexivity. Qed.

Lemma str_app_nil_r (s : string) : s +:+ EmptyString = s.
Proof. induction s as [|a s IH]; [done|]. by rewrite str_app_cons, IH. Qed.

Lemma str_app_assoc (s t u : string) : (s +:+ t) +:+ u = s +:+ t +:+ u.
Proof. induction s as [|a s IH]; [done|]. by rewrite !str_app_cons, IH. Qed.

Lemma str_app_length (s t : string) :
  String.length (s +:+ t) = String.length s + String.length t.
Proof. induction s as [|a s IH]; [done|]. rewrite str_app_cons. simpl. by rewrite IH. Qed.

Lemma startswith_spec (p s : string) :
  PyStr.startswith p s = true ↔ ∃ post, s = p +:+ post.
Proof.
  revert s. induction p as [|a p IH]; intros s; simpl.
  - split; [intros _; by exists s | done].
  - destruct s as [|b s].
    + split; [done | intros [post H]; by rewrite str_app_cons in H].
    + destruct (Ascii.eqb a b) eqn:E.
      * apply Ascii.eqb_eq in E as ->. rewrite IH. split.
        -- intros [post ->]. by exists post.
        -- intros [post H]. rewrite str_app_cons in H. injection H as ->. by exists post.
      * apply Ascii.eqb_neq in E. split; [done|].
        intros [post H]. rewrite str_app_cons in H. by injection H as -> _.
Qed.

Lemma contains_spec (b s : string) :
  PyStr.contains b s = true ↔ occurs b s.
Proof.
  induction s as [|c s IH]; simpl; rewrite orb_true_iff, startswith_spec.
  - split.
    + intros [[post H]|?]; [|done]. by exists EmptyString, post.
    + intros (pre & post & H). left. destruct pre; [by exists post | by rewrite str_app_cons in H].
  - rewrite IH. split.
    + intros [[post H]|(pre & post & ->)].
      * by exists EmptyString, post.
      * by exists (String c pre), post.
    + intros ([|c' pre] & post & H).
      * left. by exists post.
      * right. rewrite str_app_cons in H. injection H as -> ->. by exists pre, post.
Qed.

Lemma any_banned_spec (code : string) :
  any_banned code = true ↔ has_banned code.
Proof.
  unfold any_banned, has_banned. rewrite existsb_exists. split.
  - intros (b & Hin & Hc). exists b. split; [by apply list_elem_of_In|].
    by apply contains_spec.
  - intros (b & Hin & Hc). exists b. split; [by apply list_elem_of_In|].
    by apply contains_spec.
Qed.

Lemma take_length (n : nat) (s : string) :
  String.length (PyStr.take n s) = Nat.min n (String.length s).
Proof.
  revert s. induction n as [|n IH]; intros [|a s]; simpl; try done.
  by rewrite IH.
Qed.

Lemma take_prefix (n : nat) (s : string) :
  ∃ rest, s = PyStr.take n s +:+ rest.
Proof.
  revert s. induction n as [|n IH]; intros [|a s]; simpl.
  - by exists EmptyString.
  - by exists (String a s).
  - by exists EmptyString.
  - destruct (IH s) as [rest H]. exists rest. by rewrite str_app_cons, <- H.
Qed.

Lemma rstrip_empty (s : string) :
  PyStr.rstrip s = EmptyString ↔ PyStr.all_space s = true.
Proof.
  destruct s as [|c s]; [done|].
  change (PyStr.rstrip (String c s))
    with (if PyStr.all_space (String c s) then EmptyString
          else String c (PyStr.rstrip s)).
  by destruct (PyStr.all_space (String c s)).
Qed.

Lemma lstrip_spec (s : string) :
  ∃ l, s = l +:+ PyStr.lstrip s ∧ PyStr.all_space l = true ∧
       ∀ c t, PyStr.lstrip s = String c t → PyStr.isspace c = false.
Proof.
  induction s as [|a s (l & Hs & Hl & Hc)]; simpl.
  - by exists EmptyString.
  - destruct (PyStr.isspace a) eqn:E.
    + exists (String a l). rewrite str_app_cons, <- Hs. simpl. by rewrite E, Hl.
    + exists EmptyString. split_and!; [done|done|]. by intros c t [= <- _].
Qed.

Lemma rstrip_spec (s : string) :
  ∃ r, s = PyStr.rstrip s +:+ r ∧ PyStr.all_space r = true ∧
       ∀ t c, PyStr.rstrip s = t +:+ String c EmptyString →
              PyStr.isspace c = false.
Proof.
  induction s as [|a s (r & Hs & Hr & Hc)].
  - exists EmptyString. split_and!; [done|done|]. by intros [|??] ?.
  - change (PyStr.rstrip (String a s))
      with (if PyStr.all_space (String a s) then EmptyString
            else String a (PyStr.rstrip s)).
    destruct (PyStr.all_space (String a s)) eqn:E.
    + exists (String a s). split_and!; [done|done|]. by intros [|??] ?.
    + exists r. rewrite str_app_cons, <- Hs. split_and!; [done|done|].
      intros [|b t] c H.
      * rewrite str_app_nil_l in H. injection H as -> H.
        apply rstrip_empty in H. simpl in E. rewrite H in E.
        by destruct (PyStr.isspace c).
      * rewrite str_app_cons in H. injection H as _ H. by eapply Hc.
Qed.

Lemma rstrip_head (c : ascii) (s : string) :
  PyStr.isspace c = false →
  PyStr.rstrip (String c s) = String c (PyStr.rstrip s).
Proof. intros H. simpl. by rewrite H. Qed.

(** [strip] removes white space at both ends and nothing else. *)
Lemma strip_spec (s : string) :
  ∃ l r, s = l +:+ PyStr.strip s +:+ r ∧
         PyStr.all_space l = true ∧ PyStr.all_space r = true ∧
         (∀ c t, PyStr.strip s = String c t → PyStr.isspace c = false) ∧
         (∀ t c, PyStr.strip s = t +:+ String c EmptyString →
                 PyStr.isspace c = false).
Proof.
  unfold PyStr.strip.
  destruct (lstrip_spec s) as (l & Hs & Hl & Hc).
  destruct (rstrip_spec (PyStr.lstrip s)) as (r & Hm & Hr & Hd).
  exists l, r. split_and!; [|done|done| |done].
  - by rewrite <- Hm.
  - intros c t H. destruct (PyStr.lstrip s) as [|a m] eqn:E; [done|].
    specialize (Hc a m eq_refl). rewrite rstrip_head in H by done.
    by injection H as <- _.
Qed.

Example strip_example :
  PyStr.strip "  df['revenue'].sum()
" = "df['revenue'].sum()".
Proof. reflexivity. Qed.

(** ** The log *)

Lemma invocations_record (ev : event) (w : World) :
  invocations (record ev w) =
  invocations w + (if is_invoke ev then 1 else 0).
Proof.
  unfold invocations, record. simpl. rewrite filter_app, length_app.
  f_equal. by destruct ev.
Qed.

Lemma evaluated_record (ev : event) (w : World) :
  evaluated (record ev w) =
  evaluated w ++ match ev with EvEval c => [c] | _ => [] end.
Proof.
  unfold evaluated, record. simpl. rewrite omap_app. f_equal. by destruct ev.
Qed.

Lemma page_record (ev : event) (w : World) :
  page (record ev w) =
  page w ++ match ev with EvEmit e => [e] | _ => [] end.
Proof.
  unfold page, record. simpl. rewrite omap_app. f_equal. by destruct ev.
Qed.

Lemma grown_neq (ev : event) (evs : list event) (d : DataFrame) (w : World) :
  mkWorld d (w_log w ++ ev :: evs) ≠ w.
Proof.
  destruct w as [d0 l]. simpl. intros [= _ H].
  apply (f_equal length) in H. rewrite length_app in H. simpl in H. lia.
Qed.

Lemma evaluated_effects (evs : list effect) :
  omap (λ ev, match ev with EvEval c => Some c | _ => None end)
       (event_of <$> evs) = [].
Proof. induction evs as [|[] evs IH]; [done|exact IH..]. Qed.

(** ** The denylist gate *)

Lemma py_eval_run (rt : Runtime) (code : string) (g : gmap string value)
    (w : World) :
  py_eval rt code g w =
  (fst (eval_expr rt code (load_name rt (eval_globals g)) (w_df w)),
   mkWorld (snd (eval_expr rt code (load_name rt (eval_globals g)) (w_df w)))
     (w_log w ++ EvEval code
        :: (event_of <$> eval_events rt code (load_name rt (eval_globals g))
                           (w_df w) (w_log w)))).
Proof. unfold py_eval. by destruct (eval_expr _ _ _ _). Qed.

Lemma safe_execute_banned (rt : Runtime) (code : string) (w : World) :
  has_banned code → safe_execute rt code w = (inl unsafe, w).
Proof.
  intros H%any_banned_spec. unfold safe_execute. by rewrite H.
Qed.

Lemma safe_execute_accepted (rt : Runtime) (code : string) (w : World) :
  ¬ has_banned code → safe_execute rt code w = py_eval rt code safe_globals w.
Proof.
  intros H. unfold safe_execute. destruct (any_banned code) eqn:E; [|done].
  by apply any_banned_spec in E.
Qed.

Lemma has_banned_dec (code : string) : has_banned code ∨ ¬ has_banned code.
Proof.
  destruct (any_banned code) eqn:E.
  - left. by apply any_banned_spec.
  - right. intros H%any_banned_spec. congruence.
Qed.

(** C1. [safe_execute] raises [ValueError("Unsafe code detected")], before
    anything else happens, exactly when the text contains one of the seven
    denylisted substrings at some position; any other text is handed to
    [eval]. *)
Theorem safe_execute_denylist (rt : Runtime) (code : string) (w : World) :
  banned = ["import"; "os."; "open("; "exec"; "eval"; "__"; "sys."] ∧
  (safe_execute rt code w = (inl unsafe, w) ↔ has_banned code) ∧
  (has_banned code ∨ safe_execute rt code w = py_eval rt code safe_globals w).
Proof.
  split_and!; [done| |].
  - split; [|apply safe_execute_banned].
    intros H. destruct (has_banned_dec code) as [|Hn]; [done|].
    rewrite safe_execute_accepted, py_eval_run in H by done.
    injection H as _ H. by apply grown_neq in H.
  - destruct (has_banned_dec code) as [|Hn]; [by left|right].
    by apply safe_execute_accepted.
Qed.

Example rejects_dunder_call : has_banned "df.columns.__len__()".
Proof. by apply any_banned_spec. Qed.

(** C10. A text with a denylisted substring is rejected before any
    evaluation: the exception is raised in the world as it was, so the
    dataset and the log are untouched, no evaluation is recorded, and the
    outcome does not depend on the evaluator. *)
Theorem safe_execute_rejects_before_eval (rt : Runtime) (code : string)
    (w : World) :
  has_banned code →
  safe_execute rt code w = (inl unsafe, w) ∧
  w_df (snd (safe_execute rt code w)) = w_df w ∧
  evaluated (snd (safe_execute rt code w)) = evaluated w ∧
  ∀ rt', safe_execute rt' code w = safe_execute rt code w.
Proof.
  intros H. rewrite safe_execute_banned by done. split_and!; try done.
  intros rt'. by apply safe_execute_banned.
Qed.

Lemma safe_execute_rejects_before_eval_witness :
  has_banned "df.columns.__len__()" ∧
  safe_execute (Demo.host []) "df.columns.__len__()" Demo.start
  = (inl unsafe, Demo.start).
Proof.
  split; [apply rejects_dunder_call|].
  apply (safe_execute_rejects_before_eval (Demo.host [])
           "df.columns.__len__()" Demo.start).
  apply any_banned_spec. reflexivity.
Defined.

(** An accepted text is evaluated once. *)
Lemma safe_execute_accepted_evaluated (rt : Runtime) (code : string)
    (w : World) :
  ¬ has_banned code →
  evaluated (snd (safe_execute rt code w)) = evaluated w ++ [code].
Proof.
  intros H. rewrite safe_execute_accepted, py_eval_run by done.
  unfold evaluated. simpl. rewrite omap_app. simpl.
  by rewrite evaluated_effects.
Qed.

Example rejects_split_dunder : has_banned "getattr(df,'__c'+'lass__')".
Proof. by apply any_banned_spec. Qed.

Example accepts_assembled_dunder :
  ¬ has_banned "getattr(df,'_'+'_class_'+'_')".
Proof. intros H%any_banned_spec. discriminate H. Qed.

(** ** Names visible to the evaluated expression *)

Lemma eval_globals_safe :
  eval_globals safe_globals =
  <["__builtins__" := VModule "builtins"]> safe_globals.
Proof. reflexivity. Qed.

Lemma load_name_safe (rt : Runtime) (name : string) :
  load_name rt (eval_globals safe_globals) name =
  if decide (name = "df") then Some VDf
  else if decide (name = "__builtins__") then Some (VModule "builtins")
  else builtins rt !! name.
Proof.
  rewrite eval_globals_safe. unfold load_name, safe_globals.
  repeat case_decide; simplify_map_eq; done.
Qed.

(** C2, as stated, fails: the text [len] passes the denylist and evaluates
    to the built-in function of that name, which is not the dataset. *)
Lemma eval_scope_has_builtins :
  ¬ has_banned "len" ∧
  safe_execute (Demo.host []) "len" Demo.start
  = (inr (VBuiltin "len"), record (EvEval "len") Demo.start) ∧
  ¬ only_df_resolvable (Demo.host []).
Proof.
  split_and!.
  - intros H%any_banned_spec. discriminate H.
  - reflexivity.
  - intros H. specialize (H "len"). rewrite load_name_safe in H.
    assert ("len" = "df") as E; [|discriminate E].
    apply H. by eexists.
Qed.

(** C2, amended. A text that passes the denylist is evaluated by [eval]
    with a globals dict whose only entry is [df], bound to the dataset, and
    [safe_execute] returns what the evaluation produces; inside [eval] a
    name resolves exactly when it is [df], [__builtins__] or a name of the
    builtins module. *)
Theorem safe_execute_eval_scope (rt : Runtime) (code : string) (w : World) :
  ¬ has_banned code →
  safe_execute rt code w = py_eval rt code safe_globals w ∧
  fst (safe_execute rt code w)
  = fst (eval_expr rt code (load_name rt (eval_globals safe_globals)) (w_df w)) ∧
  (∀ name, safe_globals !! name = if decide (name = "df") then Some VDf else None) ∧
  (∀ name, is_Some (load_name rt (eval_globals safe_globals) name) ↔
           name = "df" ∨ name = "__builtins__" ∨ is_Some (builtins rt !! name)).
Proof.
  intros H. rewrite safe_execute_accepted by done. split_and!.
  - done.
  - by rewrite py_eval_run.
  - intros name. unfold safe_globals. case_decide; simplify_map_eq; done.
  - intros name. rewrite load_name_safe. repeat case_decide; subst.
    + split; [by left | by eexists].
    + split; [by right; left | by eexists].
    + split; [by right; right | by intros [|[|]]].
Qed.

Lemma safe_execute_eval_scope_witness :
  safe_execute (Demo.host []) "len(df)" Demo.start
  = py_eval (Demo.host []) "len(df)" safe_globals Demo.start.
Proof.
  apply (safe_execute_eval_scope (Demo.host []) "len(df)" Demo.start).
  intros H%any_banned_spec. discriminate H.
Defined.

Example len_of_dataset :
  fst (safe_execute (Demo.host []) "len(df)" Demo.start)
  = inr (VScalar (SInt 3)).
Proof. reflexivity. Qed.

Example sum_of_revenue :
  fst (safe_execute (Demo.host []) "df['revenue'].sum()" Demo.start)
  = inr (VScalar (SInt 60)).
Proof. reflexivity. Qed.

(** ** The explanation prompt *)

(** C3. The explanation request is built around [str(result)[:1000]]: the
    result enters the prompt only through that slice, which is a prefix of
    the string form, of length 1000 when the string form is longer and the
    whole string form otherwise. *)
Theorem explain_result_truncates (rt : Runtime) (question : string)
    (result : value) (w : World) :
  let s := py_str rt (snapshot (w_df w) result) in
  explain_result rt question result w
  = call_bedrock rt (explain_prompt question s) w ∧
  explain_prompt question s
  = explain_intro question +:+ PyStr.take 1000 s +:+ newline ∧
  String.length (PyStr.take 1000 s) = Nat.min 1000 (String.length s) ∧
  (∃ rest, s = PyStr.take 1000 s +:+ rest) ∧
  String.length (explain_prompt question s)
  = String.length (explain_intro question)
    + Nat.min 1000 (String.length s) + 1.
Proof.
  intros s. split_and!.
  - reflexivity.
  - reflexivity.
  - apply take_length.
  - apply take_prefix.
  - unfold explain_prompt. rewrite !str_app_length, take_length.
    change (String.length newline) with 1.
    generalize (Nat.min 1000 (String.length s)). intros n. lia.
Qed.

(** ** Rendering *)

Lemma set_index_first (key c : string) (f : DataFrame) :
  df_columns f = [key; c] →
  set_index key f =
  if decide (key = c)
  then inl (Exn ValueError "Index data must be 1-dimensional")
  else inr (ChartSetIndex key f).
Proof.
  intros H. unfold set_index, occurrences. rewrite H.
  rewrite filter_cons_True by done.
  destruct (decide (key = c)) as [->|Hne].
  - by rewrite filter_cons_True.
  - rewrite filter_cons_False by (intros ->; done). done.
Qed.

Lemma auto_visualize_table (rt : Runtime) (result : value) (f : DataFrame)
    (w : World) :
  as_frame (w_df w) result = Some f →
  auto_visualize rt result w =
  match df_columns f with
  | [key; c] =>
      if decide (key = c)
      then (inl (Exn ValueError "Index data must be 1-dimensional"), w)
      else st rt (StBarChart (ChartSetIndex key f)) w
  | _ => st rt (StDataframe f) w
  end.
Proof.
  intros Hf.
  assert (auto_visualize rt result w =
          if length (df_columns f) =? 2
          then match df_columns f !! 0 with
               | Some c =>
                   match set_index c f with
                   | inl e => raise e w
                   | inr indexed => st rt (StBarChart indexed) w
                   end
               | None => raise (Exn IndexError "index 0 is out of bounds") w
               end
          else st rt (StDataframe f) w) as ->.
  { unfold auto_visualize. destruct result; simplify_eq/=; reflexivity. }
  destruct (df_columns f) as [|a [|b [|c l]]] eqn:Hc; try reflexivity.
  change (match set_index a f with
          | inl e => raise e w
          | inr indexed => st rt (StBarChart indexed) w
          end =
          if decide (a = b)
          then (inl (Exn ValueError "Index data must be 1-dimensional"), w)
          else st rt (StBarChart (ChartSetIndex a f)) w).
  rewrite (set_index_first a b f Hc). by destruct (decide (a = b)).
Qed.

Lemma render_rule_table (d : DataFrame) (result : value) (f : DataFrame) :
  as_frame d result = Some f → render_rule d result = table_rule f.
Proof. intros Hf. destruct result; by simplify_eq/=. Qed.

Lemma auto_visualize_other (rt : Runtime) (result : value) (w : World) :
  as_frame (w_df w) result = None →
  auto_visualize rt result w = st rt (render_rule (w_df w) result) w.
Proof. intros Hf. destruct result; by simplify_eq/=. Qed.

Lemma auto_visualize_distinct (rt : Runtime) (result : value) (w : World) :
  ¬ first_label_repeated (w_df w) result →
  auto_visualize rt result w = st rt (render_rule (w_df w) result) w.
Proof.
  intros Hn. destruct (as_frame (w_df w) result) as [f|] eqn:Hf.
  - rewrite (auto_visualize_table rt result f w Hf),
      (render_rule_table _ _ _ Hf).
    unfold table_rule.
    destruct (df_columns f) as [|a [|b [|c l]]] eqn:Hc; try reflexivity.
    destruct (decide (a = b)) as [->|Hne]; [|reflexivity].
    destruct Hn. by exists f, b.
  - by apply auto_visualize_other.
Qed.

Lemma auto_visualize_repeated (rt : Runtime) (result : value) (w : World) :
  first_label_repeated (w_df w) result →
  auto_visualize rt result w
  = (inl (Exn ValueError "Index data must be 1-dimensional"), w).
Proof.
  intros (f & c & Hf & Hc).
  rewrite (auto_visualize_table rt result f w Hf), Hc.
  by rewrite decide_True.
Qed.

Lemma first_label_repeated_dec (d : DataFrame) (result : value) :
  first_label_repeated d result ∨ ¬ first_label_repeated d result.
Proof.
  destruct (as_frame d result) as [f|] eqn:Hf.
  - destruct (df_columns f) as [|a [|b [|c l]]] eqn:Hc;
      try (right; intros (f' & c' & Hf' & Hc'); congruence).
    destruct (decide (a = b)) as [->|Hne].
    + left. by exists f, b.
    + right. intros (f' & c' & Hf' & Hc'). congruence.
  - right. intros (f' & c' & Hf' & Hc'). congruence.
Qed.

(** [auto_visualize] raises before anything is drawn, or draws the one
    element of the rendering rule. *)
Lemma auto_visualize_run (rt : Runtime) (result : value) (w : World) :
  (∃ e, auto_visualize rt result w = (inl e, w)) ∨
  auto_visualize rt result w
  = (inr tt, record (EvEmit (render_rule (w_df w) result)) w).
Proof.
  destruct (first_label_repeated_dec (w_df w) result) as [Hr|Hn].
  - left. eexists. by apply auto_visualize_repeated.
  - rewrite (auto_visualize_distinct rt result w Hn). unfold st.
    destruct (st_raises rt _); [left; by eexists | by right].
Qed.

(** The statement that the rendering rule is followed for every result is
    refuted by a table whose two columns carry the same label, such as
    the value of [df[['revenue', 'revenue']]]: [set_index] raises on it,
    nothing is drawn, and the rule names a bar chart. *)
Lemma repeated_label_raises :
  ¬ renders_by_rule (Demo.host []) ∧
  length (df_columns Demo.revenue_twice) = 2 ∧
  auto_visualize (Demo.host []) (VFrame Demo.revenue_twice) Demo.start
  = (inl (Exn ValueError "Index data must be 1-dimensional"), Demo.start) ∧
  st (Demo.host []) (render_rule Demo.sales (VFrame Demo.revenue_twice))
     Demo.start
  = (inr tt,
     record (EvEmit (StBarChart (ChartSetIndex "revenue" Demo.revenue_twice)))
            Demo.start).
Proof.
  assert (auto_visualize (Demo.host []) (VFrame Demo.revenue_twice) Demo.start
          = (inl (Exn ValueError "Index data must be 1-dimensional"),
             Demo.start)) as Hrun by reflexivity.
  split_and!; [|reflexivity|exact Hrun|reflexivity].
  intros H. specialize (H (VFrame Demo.revenue_twice) Demo.start).
  rewrite Hrun in H. discriminate H.
Qed.

(** C4. [auto_visualize] makes the one Streamlit call that the rendering
    rule names for the shape of the result, unless the result is a table
    of two columns that carry the same label: then [set_index] raises
    [ValueError] and no Streamlit call is made. *)
Theorem auto_visualize_by_shape (rt : Runtime) (result : value) (w : World) :
  (¬ first_label_repeated (w_df w) result →
     auto_visualize rt result w = st rt (render_rule (w_df w) result) w) ∧
  (first_label_repeated (w_df w) result →
     auto_visualize rt result w
     = (inl (Exn ValueError "Index data must be 1-dimensional"), w)) ∧
  (∀ s, render_rule (w_df w) (VSeries s) = StBarChart (ChartSeries s)) ∧
  (∀ f key c, as_frame (w_df w) result = Some f → df_columns f = [key; c] →
     render_rule (w_df w) result = StBarChart (ChartSetIndex key f)) ∧
  (∀ f, as_frame (w_df w) result = Some f → length (df_columns f) ≠ 2 →
     render_rule (w_df w) result = StDataframe f) ∧
  ((∀ s, result ≠ VSeries s) → as_frame (w_df w) result = None →
     render_rule (w_df w) result = StWrite result).
Proof.
  split_and!.
  - apply auto_visualize_distinct.
  - apply auto_visualize_repeated.
  - done.
  - intros f key c Hf Hc. unfold render_rule, table_rule.
    destruct result; simplify_eq/=; by rewrite Hc.
  - intros f Hf Hc. unfold render_rule, table_rule.
    destruct result; simplify_eq/=;
      by match goal with
         | |- context [df_columns ?x] =>
             destruct (df_columns x) as [|? [|? [|? ?]]]
         end.
  - intros Hs Hf. destruct result; simplify_eq/=; try done.
    by destruct (Hs s).
Qed.

Lemma auto_visualize_by_shape_witness :
  auto_visualize (Demo.host []) (VFrame Demo.sales) Demo.start
  = st (Demo.host []) (StBarChart (ChartSetIndex "region" Demo.sales)) Demo.start.
Proof.
  destruct (auto_visualize_by_shape (Demo.host []) (VFrame Demo.sales) Demo.start)
    as (H & _ & _ & Hk & _).
  rewrite H, (Hk Demo.sales "region" "revenue" eq_refl eq_refl).
  - reflexivity.
  - intros (f & c & Hf & Hc). simpl in Hf. injection Hf as <-.
    injection Hc as H1 H2. rewrite <- H1 in H2. discriminate H2.
Defined.

(** ** The schema descriptor *)

Section PyDict.

Context {V : Type}.

Lemma assign_zip_fresh (ks : list string) (vs : list V)
    (m : gmap string V) (k : string) :
  k ∉ ks → foldl assign m (zip ks vs) !! k = m !! k.
Proof.
  revert vs m. induction ks as [|k0 ks IH]; intros [|v0 vs] m Hk; try done.
  apply not_elem_of_cons in Hk as [Hne Hk]. simpl.
  rewrite IH by done. unfold assign. simpl. by rewrite lookup_insert_ne.
Qed.

Lemma assign_zip_lookup (ks : list string) (vs : list V)
    (m : gmap string V) (j : nat) (k : string) (v : V) :
  NoDup ks → ks !! j = Some k → vs !! j = Some v →
  foldl assign m (zip ks vs) !! k = Some v.
Proof.
  revert vs m j. induction ks as [|k0 ks IH]; intros [|v0 vs] m j Hnd Hk Hv;
    try done.
  apply NoDup_cons in Hnd as [Hfresh Hnd]. destruct j as [|j]; simpl in *.
  - simplify_eq. rewrite assign_zip_fresh by done.
    unfold assign. simpl. by rewrite lookup_insert_eq.
  - by eapply IH.
Qed.

Lemma assign_zip_dom (ks : list string) (vs : list V)
    (m : gmap string V) (k : string) :
  length vs = length ks →
  is_Some (foldl assign m (zip ks vs) !! k) ↔ k ∈ ks ∨ is_Some (m !! k).
Proof.
  revert vs m. induction ks as [|k0 ks IH]; intros [|v0 vs] m Hlen;
    simplify_eq/=.
  - split; [by right | intros [Hin|]; [by apply elem_of_nil in Hin | done]].
  - rewrite IH by done. rewrite elem_of_cons. unfold assign. simpl.
    destruct (decide (k = k0)) as [->|Hne].
    + rewrite lookup_insert_eq. split; [by left; left | intros _; right; by eexists].
    + rewrite lookup_insert_ne by done.
      split; [intros [|]; [left; by right | by right]
             | intros [[|]|]; [done | by left | by right]].
Qed.

Lemma py_dict_zip_lookup (ks : list string) (vs : list V) (j : nat)
    (k : string) (v : V) :
  NoDup ks → ks !! j = Some k → vs !! j = Some v →
  py_dict (zip ks vs) !! k = Some v.
Proof. apply assign_zip_lookup. Qed.

Lemma py_dict_zip_dom (ks : list string) (vs : list V) (k : string) :
  length vs = length ks →
  is_Some (py_dict (zip ks vs) !! k) ↔ k ∈ ks.
Proof.
  intros H. unfold py_dict. rewrite assign_zip_dom by done.
  rewrite lookup_empty. split; [intros [|[? ?]]; done | by left].
Qed.

End PyDict.

Lemma sample_rows_lookup (d : DataFrame) (i : nat) :
  sample_rows (get_schema d) !! i =
  if decide (i < 5)
  then (λ r, py_dict (zip (df_columns d) r)) <$> df_rows d !! i
  else None.
Proof.
  unfold get_schema, to_records, head. simpl. rewrite list_lookup_fmap.
  case_decide.
  - by rewrite lookup_take_lt.
  - by rewrite lookup_take_ge by lia.
Qed.

(** C5. The descriptor of a dataset whose lengths agree and whose column
    labels are distinct: [columns] is the ordered list of labels, whatever
    the rows are; [types] is defined exactly on the labels and gives each
    label the name of its type; [sample_rows] holds the first five rows at
    most, each one as the dict from labels to cells.  [get_schema] is a
    function of the table alone. *)
Theorem get_schema_descriptor (d : DataFrame) :
  wf_frame d → NoDup (df_columns d) →
  columns (get_schema d) = df_columns d ∧
  (∀ rows, columns (get_schema (mkDataFrame (df_columns d) (df_dtypes d) rows))
           = df_columns d) ∧
  (∀ c, is_Some (types (get_schema d) !! c) ↔ c ∈ df_columns d) ∧
  (∀ j c t, df_columns d !! j = Some c → df_dtypes d !! j = Some t →
            types (get_schema d) !! c = Some (dtype_str t)) ∧
  sample_rows (get_schema d) = to_records (head 5 d) ∧
  length (sample_rows (get_schema d)) = Nat.min 5 (length (df_rows d)) ∧
  (∀ i r, i < 5 → df_rows d !! i = Some r →
          sample_rows (get_schema d) !! i = Some (py_dict (zip (df_columns d) r))) ∧
  (∀ i, 5 ≤ i → sample_rows (get_schema d) !! i = None) ∧
  (∀ i r j c x, i < 5 → df_rows d !! i = Some r →
                df_columns d !! j = Some c → r !! j = Some x →
                ∃ rec, sample_rows (get_schema d) !! i = Some rec ∧
                       rec !! c = Some x).
Proof.
  intros [Hty Hrows] Hnd. split_and!.
  - reflexivity.
  - reflexivity.
  - intros c. unfold get_schema, dtypes_to_dict. simpl.
    apply py_dict_zip_dom. by rewrite length_fmap.
  - intros j c t Hc Ht. unfold get_schema, dtypes_to_dict. simpl.
    apply (py_dict_zip_lookup _ _ j); [done|done|].
    by rewrite list_lookup_fmap, Ht.
  - reflexivity.
  - unfold get_schema, to_records, head. simpl.
    by rewrite length_fmap, length_take.
  - intros i r Hi Hr. rewrite sample_rows_lookup.
    case_decide; [|lia]. by rewrite Hr.
  - intros i Hi. rewrite sample_rows_lookup. case_decide; [lia|done].
  - intros i r j c x Hi Hr Hc Hx. eexists. split.
    + rewrite sample_rows_lookup. case_decide; [|lia]. by rewrite Hr.
    + by apply (py_dict_zip_lookup _ _ j).
Qed.

Lemma get_schema_descriptor_witness :
  columns (get_schema Demo.sales) = ["region"; "revenue"] ∧
  types (get_schema Demo.sales) !! "revenue" = Some "int64".
Proof.
  assert (wf_frame Demo.sales) as Hwf.
  { split; [reflexivity|]. repeat constructor. }
  assert (NoDup (df_columns Demo.sales)) as Hnd.
  { apply (bool_decide_unpack _). by vm_compute. }
  destruct (get_schema_descriptor Demo.sales Hwf Hnd) as (Hc & _ & _ & Ht & _).
  split; [exact Hc|]. by apply (Ht 1 "revenue" Int64).
Defined.

(** ** The remote invocation *)

Lemma bind_run {A B} (m : M A) (f : A → M B) (w : World) :
  (m ≫= f) w =
  match m w with
  | (inl e, w') => (inl e, w')
  | (inr a, w') => f a w'
  end.
Proof. reflexivity. Qed.

Lemma call_bedrock_run (rt : Runtime) (prompt : string) (w : World) :
  call_bedrock rt prompt w =
  (and_then (invoke_model rt (w_log w) MODEL_ID (request_body prompt)) read_answer,
   record (EvInvoke MODEL_ID (request_body prompt)) w).
Proof.
  unfold call_bedrock. rewrite bind_run. unfold bedrock_invoke, lift.
  by destruct (invoke_model _ _ _ _).
Qed.

Lemma read_answer_ok (resp : json) (s : string) :
  read_answer resp = inr s ↔
  ∃ content segment text,
    getitem_key resp "content" = inr content ∧
    getitem_0 content = inr segment ∧
    getitem_key segment "text" = inr (JStr text) ∧
    s = PyStr.strip text.
Proof.
  unfold read_answer, and_then. split.
  - destruct (getitem_key resp "content") as [|content] eqn:Hc; [done|].
    destruct (getitem_0 content) as [|segment] eqn:Hs; [done|].
    destruct (getitem_key segment "text") as [|[]] eqn:Ht; try done.
    intros [= <-]. eexists _, _, _. by split_and!.
  - intros (content & segment & text & -> & -> & -> & ->). done.
Qed.

(** C9. [call_bedrock] makes one invocation, of the fixed model, whose
    body holds the version tag, [max_tokens] 300, [temperature] 0 and one
    message of role [user] with the whole prompt as content.  An exception
    of the invocation is the outcome of [call_bedrock]; an answer gives the
    stripped text of its first content segment, and an answer that has no
    such text gives the exception of the failing access.  Nothing is
    invoked a second time. *)
Theorem call_bedrock_contract (rt : Runtime) (prompt : string) (w : World) :
  let body := request_body prompt in
  snd (call_bedrock rt prompt w) = record (EvInvoke MODEL_ID body) w ∧
  invocations (snd (call_bedrock rt prompt w)) = invocations w + 1 ∧
  getitem_key body "anthropic_version" = inr (JStr "bedrock-2023-05-31") ∧
  getitem_key body "max_tokens" = inr (JInt 300) ∧
  getitem_key body "temperature" = inr (JInt 0) ∧
  getitem_key body "messages"
  = inr (JArr [JObj [("role", JStr "user"); ("content", JStr prompt)]]) ∧
  (∀ e, invoke_model rt (w_log w) MODEL_ID body = inl e →
        fst (call_bedrock rt prompt w) = inl e) ∧
  (∀ resp, invoke_model rt (w_log w) MODEL_ID body = inr resp →
           fst (call_bedrock rt prompt w) = read_answer resp) ∧
  (∀ resp s, read_answer resp = inr s ↔
     ∃ content segment text,
       getitem_key resp "content" = inr content ∧
       getitem_0 content = inr segment ∧
       getitem_key segment "text" = inr (JStr text) ∧
       s = PyStr.strip text).
Proof.
  intros body. subst body. rewrite call_bedrock_run.
  split_and!; try reflexivity.
  - simpl. by rewrite invocations_record.
  - intros e H. simpl. by rewrite H.
  - intros resp H. simpl. by rewrite H.
  - apply read_answer_ok.
Qed.

Lemma call_bedrock_contract_witness :
  fst (call_bedrock (Demo.host [inr (Demo.text_answer "  df.head()  ")])
         "Which region sells most?" Demo.start)
  = inr "df.head()".
Proof.
  destruct (call_bedrock_contract
              (Demo.host [inr (Demo.text_answer "  df.head()  ")])
              "Which region sells most?" Demo.start)
    as (_ & _ & _ & _ & _ & _ & _ & Hok & Hread).
  rewrite (Hok (Demo.text_answer "  df.head()  ") eq_refl).
  apply Hread.
  exists (JArr [JObj [("type", JStr "text"); ("text", JStr "  df.head()  ")]]),
         (JObj [("type", JStr "text"); ("text", JStr "  df.head()  ")]),
         "  df.head()  ".
  by split_and!.
Defined.

Example malformed_answer_raises :
  fst (call_bedrock (Demo.host [inr (JObj [("content", JArr [])])])
         "Which region sells most?" Demo.start)
  = inl (Exn IndexError "list index out of range").
Proof. reflexivity. Qed.

(** ** Effects of the steps on the world *)

Section Effects.

Context (rt : Runtime).

Lemma st_run (e : element) (w : World) :
  st rt e w =
  match st_raises rt e with
  | Some x => (inl x, w)
  | None => (inr tt, record (EvEmit e) w)
  end.
Proof. reflexivity. Qed.

Lemma st_ok (e : element) (w w' : World) (u : unit) :
  st rt e w = (inr u, w') →
  st_raises rt e = None ∧ w' = record (EvEmit e) w.
Proof. rewrite st_run. destruct (st_raises rt e); by intros [= <-]. Qed.

Lemma st_write_run (v : value) (w : World) :
  st_write rt v w = st rt (StWrite (snapshot (w_df w) v)) w.
Proof. reflexivity. Qed.

Lemma explain_result_run (question : string) (result : value) (w : World) :
  explain_result rt question result w =
  call_bedrock rt
    (explain_prompt question (py_str rt (snapshot (w_df w) result))) w.
Proof. reflexivity. Qed.

(** *** The dataset *)

Lemma keeps_df_bind {A B} (m : M A) (f : A → M B) :
  keeps_df m → (∀ a, keeps_df (f a)) → keeps_df (m ≫= f).
Proof.
  intros Hm Hf w. rewrite bind_run. specialize (Hm w).
  destruct (m w) as [[e|a] w']; simpl in *; [done|].
  by rewrite Hf.
Qed.

Lemma keeps_df_try {A} (body : M A) (handler : exn → M A) :
  keeps_df body → (∀ e, keeps_df (handler e)) →
  keeps_df (try_except body handler).
Proof.
  intros Hb Hh w. unfold try_except. specialize (Hb w).
  destruct (body w) as [[e|a] w']; simpl in *; [|done].
  destruct (is_Exception e); [|done]. by rewrite Hh.
Qed.

Lemma keeps_df_ret {A} (a : A) : keeps_df (mret a : M A).
Proof. by intros w. Qed.

Lemma keeps_df_st (e : element) : keeps_df (st rt e).
Proof. intros w. rewrite st_run. by destruct (st_raises rt e). Qed.

Lemma keeps_df_st_write (v : value) : keeps_df (st_write rt v).
Proof. intros w. rewrite st_write_run. apply keeps_df_st. Qed.

Lemma keeps_df_auto_visualize (v : value) : keeps_df (auto_visualize rt v).
Proof.
  intros w. destruct (auto_visualize_run rt v w) as [[e ->]| ->]; reflexivity.
Qed.

Lemma keeps_df_call_bedrock (prompt : string) :
  keeps_df (call_bedrock rt prompt).
Proof. intros w. by rewrite call_bedrock_run. Qed.

Lemma keeps_df_explain_result (question : string) (result : value) :
  keeps_df (explain_result rt question result).
Proof. intros w. rewrite explain_result_run. apply keeps_df_call_bedrock. Qed.

Lemma keeps_df_on_error (e : exn) : keeps_df (on_error rt e).
Proof. apply keeps_df_bind; [apply keeps_df_st | intros; apply keeps_df_st]. Qed.

Lemma keeps_df_show_result (result : value) : keeps_df (show_result rt result).
Proof.
  unfold show_result.
  apply keeps_df_bind; [apply keeps_df_st | intros _].
  apply keeps_df_bind; [apply keeps_df_st_write | intros _].
  apply keeps_df_bind; [apply keeps_df_st_write | intros _].
  apply keeps_df_bind; [apply keeps_df_st_write | intros _].
  apply keeps_df_bind; [apply keeps_df_auto_visualize | intros _].
  apply keeps_df_st_write.
Qed.

Lemma keeps_df_present (question : string) (result : value) :
  keeps_df (present rt question result).
Proof.
  unfold present.
  apply keeps_df_bind; [apply keeps_df_show_result | intros _].
  apply keeps_df_bind; [apply keeps_df_explain_result | intros s].
  apply keeps_df_st.
Qed.

Lemma df_by_eval_of_keeps {A} (m : M A) : keeps_df m → df_by_eval rt m.
Proof. intros H w. left. apply H. Qed.

Lemma df_by_eval_bind_l {A B} (m : M A) (f : A → M B) :
  keeps_df m → (∀ a, df_by_eval rt (f a)) → df_by_eval rt (m ≫= f).
Proof.
  intros Hm Hf w. rewrite bind_run. specialize (Hm w).
  destruct (m w) as [[e|a] w']; simpl in *; [by left|].
  rewrite <- Hm. apply Hf.
Qed.

Lemma df_by_eval_bind_r {A B} (m : M A) (f : A → M B) :
  df_by_eval rt m → (∀ a, keeps_df (f a)) → df_by_eval rt (m ≫= f).
Proof.
  intros Hm Hf w. rewrite bind_run. specialize (Hm w).
  destruct (m w) as [[e|a] w']; simpl in *; [done|].
  rewrite !(Hf a w'). exact Hm.
Qed.

Lemma df_by_eval_try {A} (body : M A) (handler : exn → M A) :
  df_by_eval rt body → (∀ e, keeps_df (handler e)) →
  df_by_eval rt (try_except body handler).
Proof.
  intros Hb Hh w. unfold try_except. specialize (Hb w).
  destruct (body w) as [[e|a] w']; simpl in *; [|done].
  destruct (is_Exception e); [|done]. rewrite !(Hh e w'). exact Hb.
Qed.

Lemma df_by_eval_safe_execute (code : string) :
  df_by_eval rt (safe_execute rt code).
Proof.
  intros w. destruct (has_banned_dec code) as [Hb|Hn].
  - left. by rewrite safe_execute_banned.
  - right. exists code. split; [done|].
    by rewrite safe_execute_accepted, py_eval_run.
Qed.

End Effects.

(** ** The dataset during a run *)

Lemma df_by_eval_analysis_body (rt : Runtime) (question prompt : string) :
  df_by_eval rt (analysis_body rt question prompt).
Proof.
  unfold analysis_body.
  apply df_by_eval_bind_l; [apply keeps_df_call_bedrock | intros ai_code].
  apply df_by_eval_bind_l; [apply keeps_df_st | intros _].
  apply df_by_eval_bind_l; [apply keeps_df_st | intros _].
  apply df_by_eval_bind_r; [apply df_by_eval_safe_execute | intros result].
  apply keeps_df_bind; [apply keeps_df_st | intros _].
  apply keeps_df_bind; [apply keeps_df_st_write | intros _].
  apply keeps_df_bind; [apply keeps_df_st_write | intros _].
  apply keeps_df_bind; [apply keeps_df_st_write | intros _].
  apply keeps_df_bind; [apply keeps_df_auto_visualize | intros _].
  apply keeps_df_bind; [apply keeps_df_st_write | intros _].
  apply keeps_df_bind; [apply keeps_df_explain_result | intros explanation].
  apply keeps_df_st.
Qed.

Lemma df_by_eval_run_analysis (rt : Runtime) (schema : Schema)
    (question : string) :
  df_by_eval rt (run_analysis rt schema question).
Proof.
  unfold run_analysis.
  do 3 (apply df_by_eval_bind_l; [apply keeps_df_st | intros _]).
  apply df_by_eval_try; [apply df_by_eval_analysis_body|].
  apply keeps_df_on_error.
Qed.

Lemma df_by_eval_script (rt : Runtime) (run_btn : bool) (question : string) :
  df_by_eval rt (script rt run_btn question).
Proof.
  intros w. unfold script.
  do 3 (apply (df_by_eval_bind_l rt); [apply keeps_df_st | intros _]).
  apply (df_by_eval_bind_r rt).
  - destruct (run_btn && nonempty question).
    + apply df_by_eval_run_analysis.
    + apply df_by_eval_of_keeps, keeps_df_ret.
  - intros _. apply keeps_df_bind; [apply keeps_df_st | intros _; apply keeps_df_st].
Qed.




(** ** Stages of the suite *)

Lemma bind_assoc {A B C} (m : M A) (f : A → M B) (g : B → M C) (w : World) :
  ((m ≫= f) ≫= g) w = (m ≫= (λ a, f a ≫= g)) w.
Proof. rewrite !bind_run. by destruct (m w) as [[e|a] w']. Qed.

Lemma bind_ext {A B} (m : M A) (f g : A → M B) (w : World) :
  (∀ a w', f a w' = g a w') → (m ≫= f) w = (m ≫= g) w.
Proof. intros H. rewrite !bind_run. by destruct (m w) as [[e|a] w']. Qed.

Lemma analysis_body_stages (rt : Runtime) (question prompt : string)
    (w : World) :
  analysis_body rt question prompt w
  = (generate_and_evaluate rt prompt ≫= present rt question) w.
Proof.
  unfold analysis_body, generate_and_evaluate, present, show_result.
  symmetry.
  rewrite bind_assoc. apply bind_ext. intros ai_code w1.
  rewrite bind_assoc. apply bind_ext. intros _ w2.
  rewrite bind_assoc. apply bind_ext. intros _ w3.
  apply bind_ext. intros result w4.
  rewrite bind_assoc. apply bind_ext. intros _ w5.
  rewrite bind_assoc. apply bind_ext. intros _ w6.
  rewrite bind_assoc. apply bind_ext. intros _ w7.
  rewrite bind_assoc. apply bind_ext. intros _ w8.
  rewrite bind_assoc. apply bind_ext. intros _ w9.
  reflexivity.
Qed.

(** ** Counting the remote invocations *)

Section Counting.

Context (rt : Runtime).

Lemma counts_bind {A B} (lo1 hi1 lo2 hi2 : nat) (m : M A) (f : A → M B) :
  counts lo1 hi1 m → (∀ a, counts lo2 hi2 (f a)) →
  counts lo1 (hi1 + hi2) (m ≫= f).
Proof.
  intros Hm Hf w. rewrite bind_run. destruct (Hm w) as [Hb Hs].
  destruct (m w) as [[e|a] w']; simpl in *.
  - split; [lia | done].
  - specialize (Hs a eq_refl). destruct (Hf a w') as [Hb' Hs'].
    split; [lia|]. intros b Hb2. rewrite (Hs' b Hb2). lia.
Qed.

Lemma counts_st (e : element) : counts 0 0 (st rt e).
Proof.
  intros w. rewrite st_run.
  destruct (st_raises rt e); simpl; rewrite ?invocations_record; simpl;
    split; try lia; intros; lia.
Qed.

Lemma counts_st_write (v : value) : counts 0 0 (st_write rt v).
Proof. intros w. rewrite st_write_run. apply counts_st. Qed.

Lemma counts_auto_visualize (v : value) : counts 0 0 (auto_visualize rt v).
Proof.
  intros w. destruct (auto_visualize_run rt v w) as [[e ->]| ->]; simpl;
    rewrite ?invocations_record; simpl; split; try lia; intros; lia.
Qed.

Lemma counts_call_bedrock (prompt : string) :
  counts 1 1 (call_bedrock rt prompt).
Proof.
  intros w. rewrite call_bedrock_run. simpl. rewrite invocations_record.
  simpl. split; [lia | intros; lia].
Qed.

Lemma counts_explain_result (question : string) (result : value) :
  counts 1 1 (explain_result rt question result).
Proof. intros w. rewrite explain_result_run. apply counts_call_bedrock. Qed.

Lemma invocations_effects (d : DataFrame) (w : World) (code : string)
    (evs : list effect) :
  invocations (mkWorld d (w_log w ++ EvEval code :: (event_of <$> evs)))
  = invocations w + fx_invocations evs.
Proof.
  unfold invocations, fx_invocations. simpl.
  rewrite filter_app, length_app. f_equal.
Qed.

(** What an accepted expression adds to the invocations is what its
    evaluation invokes. *)
Lemma safe_execute_invocations (code : string) (w : World) :
  ¬ has_banned code →
  invocations (snd (safe_execute rt code w))
  = invocations w
    + fx_invocations
        (eval_events rt code (load_name rt (eval_globals safe_globals))
           (w_df w) (w_log w)).
Proof.
  intros Hn. rewrite safe_execute_accepted, py_eval_run by done.
  cbn [snd]. apply invocations_effects.
Qed.

Hypothesis Hquiet : eval_invokes_nothing rt.

Lemma counts_safe_execute (code : string) : counts 0 0 (safe_execute rt code).
Proof.
  intros w. destruct (has_banned_dec code) as [Hb|Hn].
  - rewrite safe_execute_banned by done. simpl. split; [lia | intros; lia].
  - rewrite (safe_execute_invocations code w Hn), Hquiet.
    split; [lia | intros; lia].
Qed.

Lemma counts_on_error (e : exn) : counts 0 0 (on_error rt e).
Proof.
  apply (counts_bind 0 0 0 0); [apply counts_st | intros _; apply counts_st].
Qed.

Lemma counts_generate_and_evaluate (prompt : string) :
  counts 1 1 (generate_and_evaluate rt prompt).
Proof.
  unfold generate_and_evaluate.
  apply (counts_bind 1 1 0 0); [apply counts_call_bedrock | intros ai_code].
  apply (counts_bind 0 0 0 0); [apply counts_st | intros _].
  apply (counts_bind 0 0 0 0); [apply counts_st | intros _].
  apply counts_safe_execute.
Qed.

Lemma counts_show_result (result : value) : counts 0 0 (show_result rt result).
Proof.
  unfold show_result.
  apply (counts_bind 0 0 0 0); [apply counts_st | intros _].
  apply (counts_bind 0 0 0 0); [apply counts_st_write | intros _].
  apply (counts_bind 0 0 0 0); [apply counts_st_write | intros _].
  apply (counts_bind 0 0 0 0); [apply counts_st_write | intros _].
  apply (counts_bind 0 0 0 0); [apply counts_auto_visualize | intros _].
  apply counts_st_write.
Qed.

Lemma counts_present (question : string) (result : value) :
  counts 0 1 (present rt question result).
Proof.
  unfold present.
  apply (counts_bind 0 0 1 1); [apply counts_show_result | intros _].
  apply (counts_bind 1 1 0 0); [apply counts_explain_result | intros s].
  apply counts_st.
Qed.

Lemma counts_stages (question prompt : string) :
  counts 1 2 (generate_and_evaluate rt prompt ≫= present rt question).
Proof.
  apply (counts_bind 1 1 0 1); [apply counts_generate_and_evaluate|].
  intros result. apply counts_present.
Qed.

(** The [try] statement adds nothing to what its suite invoked. *)
Lemma analysis_try_invocations (question prompt : string) (w : World) :
  invocations (snd (analysis_try rt question prompt w))
  = invocations (snd (analysis_body rt question prompt w)).
Proof.
  unfold analysis_try, try_except.
  destruct (analysis_body rt question prompt w) as [[e|a] w']; [|done].
  destruct (is_Exception e); [|done].
  destruct (counts_on_error e w') as [Hb _]. simpl in *. lia.
Qed.

End Counting.

Section Bounds.

Context (rt : Runtime).

Lemma at_most_of_counts {A} (lo hi : nat) (m : M A) :
  counts lo hi m → at_most hi m.
Proof. intros H w. destruct (H w) as [Hb _]. lia. Qed.

Lemma at_most_bind {A B} (k1 k2 : nat) (m : M A) (f : A → M B) :
  at_most k1 m → (∀ a, at_most k2 (f a)) → at_most (k1 + k2) (m ≫= f).
Proof.
  intros Hm Hf w. rewrite bind_run. specialize (Hm w).
  destruct (m w) as [[e|a] w']; simpl in *; [lia|].
  specialize (Hf a w'). lia.
Qed.

Lemma run_analysis_opened (schema : Schema) (question : string) (w : World) :
  handler_opens rt →
  run_analysis rt schema question w
  = analysis_try rt question (build_prompt rt schema question) (opened w).
Proof.
  intros (H1 & H2 & H3). unfold run_analysis, opened.
  rewrite bind_run, st_run, H1. cbv beta iota.
  rewrite bind_run, st_run, H2. cbv beta iota.
  rewrite bind_run, st_run, H3. reflexivity.
Qed.

Lemma invocations_opened (w : World) : invocations (opened w) = invocations w.
Proof. unfold opened. rewrite !invocations_record. simpl. lia. Qed.

Lemma run_analysis_unopened (schema : Schema) (question : string)
    (w : World) :
  ¬ handler_opens rt →
  invocations (snd (run_analysis rt schema question w)) = invocations w.
Proof.
  intros Hn. unfold run_analysis. rewrite bind_run, st_run.
  destruct (st_raises rt StDivider) eqn:H1; [done|]. cbv beta iota.
  rewrite bind_run, st_run.
  destruct (st_raises rt (StSubheader "🔍 Analysis")) eqn:H2.
  { cbn [snd]. rewrite invocations_record. simpl. lia. }
  cbv beta iota. rewrite bind_run, st_run.
  destruct (st_raises rt (StSpinner "Thinking with AWS Bedrock...")) eqn:H3.
  { cbn [snd]. rewrite !invocations_record. simpl. lia. }
  by destruct Hn.
Qed.

Hypothesis Hquiet : eval_invokes_nothing rt.

Lemma analysis_try_counts (question prompt : string) (w : World) :
  invocations w + 1 ≤ invocations (snd (analysis_try rt question prompt w))
  ≤ invocations w + 2 ∧
  (∀ u, fst (analysis_body rt question prompt w) = inr u →
        invocations (snd (analysis_try rt question prompt w))
        = invocations w + 2) ∧
  (∀ e, fst (generate_and_evaluate rt prompt w) = inl e →
        invocations (snd (analysis_try rt question prompt w))
        = invocations w + 1).
Proof.
  rewrite analysis_try_invocations, analysis_body_stages.
  destruct (counts_stages rt Hquiet question prompt w) as [Hb Hs].
  split; [exact Hb|]. split; [exact Hs|].
  intros e H. rewrite bind_run.
  destruct (counts_generate_and_evaluate rt Hquiet prompt w) as [Hb' _].
  destruct (generate_and_evaluate rt prompt w) as [[e'|r] w'];
    simplify_eq/=. lia.
Qed.

Lemma at_most_analysis_try (question prompt : string) :
  at_most 2 (analysis_try rt question prompt).
Proof.
  intros w. destruct (analysis_try_counts question prompt w) as [Hb _]. lia.
Qed.

Lemma at_most_run_analysis (schema : Schema) (question : string) :
  at_most 2 (run_analysis rt schema question).
Proof.
  unfold run_analysis.
  apply (at_most_bind 0 2); [apply (at_most_of_counts 0), counts_st | intros _].
  apply (at_most_bind 0 2); [apply (at_most_of_counts 0), counts_st | intros _].
  apply (at_most_bind 0 2); [apply (at_most_of_counts 0), counts_st | intros _].
  apply at_most_analysis_try.
Qed.

Lemma at_most_script (run_btn : bool) (question : string) :
  at_most 2 (script rt run_btn question).
Proof.
  intros w. unfold script.
  do 3 (apply (at_most_bind 0 2);
        [apply (at_most_of_counts 0), counts_st | intros _]).
  apply (at_most_bind 2 0).
  - destruct (run_btn && nonempty question).
    + apply at_most_run_analysis.
    + intros w'. simpl. lia.
  - intros _.
    apply (at_most_bind 0 0); [apply (at_most_of_counts 0), counts_st | intros _].
    apply (at_most_of_counts 0), counts_st.
Qed.

Lemma generation_failure (prompt : string) (w : World) (e : exn) :
  fst (call_bedrock rt prompt w) = inl e →
  fst (generate_and_evaluate rt prompt w) = inl e.
Proof.
  intros H. unfold generate_and_evaluate. rewrite bind_run.
  by destruct (call_bedrock rt prompt w) as [[e'|code] w']; simplify_eq/=.
Qed.

Lemma evaluation_failure (prompt code : string) (w w1 w2 w3 : World)
    (e : exn) :
  call_bedrock rt prompt w = (inr code, w1) →
  st rt (StExpander "🧠 AI-Generated Pandas Code") w1 = (inr tt, w2) →
  st rt (StCode code "python") w2 = (inr tt, w3) →
  fst (safe_execute rt code w3) = inl e →
  fst (generate_and_evaluate rt prompt w) = inl e.
Proof.
  intros H1 H2 H3 H4. unfold generate_and_evaluate.
  rewrite bind_run, H1, bind_run, H2, bind_run, H3. done.
Qed.

End Bounds.



Example two_requests_in_order :
  filter (λ ev, is_invoke ev = true)
    (w_log (snd (analysis_try (Demo.host Demo.sum_answers)
                   "What is the total revenue?" "PROMPT" Demo.start)))
  = [EvInvoke MODEL_ID (request_body "PROMPT");
     EvInvoke MODEL_ID
       (request_body (explain_prompt "What is the total revenue?" "60"))].
Proof. by vm_compute. Qed.

Example scalar_result_is_written :
  page (snd (analysis_try (Demo.host Demo.sum_answers)
               "What is the total revenue?" "PROMPT" Demo.start))
  = [StExpander "🧠 AI-Generated Pandas Code";
     StCode "df['revenue'].sum()" "python";
     StSuccess "Analysis completed!";
     StWrite (VScalar (SStr "### Result"));
     StWrite (VScalar (SInt 60));
     StWrite (VScalar (SStr "### Visualization"));
     StWrite (VScalar (SInt 60));
     StWrite (VScalar (SStr "### 🗣 Explanation"));
     StInfo "Total revenue is 60."].
Proof. by vm_compute. Qed.


(** ** The page when the explanation request fails *)

Section Page.

Context (rt : Runtime).

Lemma page_grows_bind {A B} (m : M A) (f : A → M B) :
  page_grows m → (∀ a, page_grows (f a)) → page_grows (m ≫= f).
Proof.
  intros Hm Hf w. rewrite bind_run. destruct (Hm w) as [els Hels].
  destruct (m w) as [[e|a] w']; simpl in *; [by exists els|].
  destruct (Hf a w') as [els' Hels']. exists (els ++ els').
  by rewrite Hels', Hels, <- (assoc_L (++)).
Qed.

Lemma page_grows_st (e : element) : page_grows (st rt e).
Proof.
  intros w. rewrite st_run. destruct (st_raises rt e); simpl.
  - exists []. by rewrite (right_id_L [] (++)).
  - exists [e]. by rewrite page_record.
Qed.

Lemma page_grows_on_error (e : exn) : page_grows (on_error rt e).
Proof.
  apply page_grows_bind; [apply page_grows_st | intros _; apply page_grows_st].
Qed.

(** Every exception of the suite that [except Exception] catches goes
    to the one error suite. *)
Lemma analysis_try_handler (question prompt : string) (w w' : World)
    (e : exn) :
  analysis_body rt question prompt w = (inl e, w') →
  is_Exception e = true →
  analysis_try rt question prompt w = on_error rt e w'.
Proof. intros H He. unfold analysis_try, try_except. by rewrite H, He. Qed.

Lemma show_result_page (result : value) (w1 w2 : World) :
  show_result rt result w1 = (inr tt, w2) →
  page w2 = page w1 ++ result_elements (w_df w1) result ∧
  w_df w2 = w_df w1.
Proof.
  unfold show_result. intros H.
  rewrite bind_run in H.
  destruct (st rt _ w1) as [[?|[]] wa] eqn:Ea; [done|].
  apply st_ok in Ea as [_ ->].
  rewrite bind_run, st_write_run in H.
  destruct (st rt _ _) as [[?|[]] wb] eqn:Eb in H; [done|].
  apply st_ok in Eb as [_ ->].
  rewrite bind_run, st_write_run in H.
  destruct (st rt _ _) as [[?|[]] wc] eqn:Ec in H; [done|].
  apply st_ok in Ec as [_ ->].
  rewrite bind_run, st_write_run in H.
  destruct (st rt _ _) as [[?|[]] wd] eqn:Ed in H; [done|].
  apply st_ok in Ed as [_ ->].
  rewrite bind_run in H.
  match type of H with
  | context [auto_visualize rt result ?W] =>
      destruct (auto_visualize_run rt result W) as [[e He]|He];
      rewrite He in H; [done|]
  end.
  cbv beta iota in H.
  rewrite st_write_run in H. apply st_ok in H as [_ ->].
  split; [|reflexivity].
  rewrite !page_record. simpl. by rewrite <- !(assoc_L (++)).
Qed.

Lemma explain_result_page (question : string) (result : value)
    (w : World) :
  page (snd (explain_result rt question result w)) = page w.
Proof.
  rewrite explain_result_run, call_bedrock_run. simpl.
  rewrite page_record. by rewrite (right_id_L [] (++)).
Qed.

Lemma on_error_ok (e : exn) (w : World) :
  st_raises rt (StError "Something went wrong.") = None →
  st_raises rt (StText (format_exc rt e)) = None →
  on_error rt e w =
  (inr tt, record (EvEmit (StText (format_exc rt e)))
             (record (EvEmit (StError "Something went wrong.")) w)).
Proof.
  intros H1 H2. unfold on_error. rewrite bind_run, st_run, H1.
  by rewrite st_run, H2.
Qed.

End Page.

Example sum_stays_on_page :
  page (snd (analysis_try (Demo.host Demo.sum_then_timeout)
               "What is the total revenue?" "PROMPT" Demo.start))
  = [StExpander "🧠 AI-Generated Pandas Code";
     StCode "df['revenue'].sum()" "python";
     StSuccess "Analysis completed!";
     StWrite (VScalar (SStr "### Result"));
     StWrite (VScalar (SInt 60));
     StWrite (VScalar (SStr "### Visualization"));
     StWrite (VScalar (SInt 60));
     StWrite (VScalar (SStr "### 🗣 Explanation"));
     StError "Something went wrong.";
     StText "Traceback (most recent call last): Read timeout on endpoint"].
Proof. by vm_compute. Qed.

(** C8, as stated, fails in its second half: when the second remote call
    times out after the sum of the revenue column was computed, the page
    still shows the value 60, followed by the error message. *)
Lemma explanation_failure_keeps_result :
  fst (analysis_try (Demo.host Demo.sum_then_timeout)
         "What is the total revenue?" "PROMPT" Demo.start) = inr tt ∧
  StWrite (VScalar (SInt 60))
  ∈ page (snd (analysis_try (Demo.host Demo.sum_then_timeout)
                 "What is the total revenue?" "PROMPT" Demo.start)) ∧
  StError "Something went wrong."
  ∈ page (snd (analysis_try (Demo.host Demo.sum_then_timeout)
                 "What is the total revenue?" "PROMPT" Demo.start)) ∧
  ¬ explanation_failure_hides_result (Demo.host Demo.sum_then_timeout).
Proof.
  split_and!.
  - by vm_compute.
  - rewrite sum_stays_on_page. apply list_elem_of_In. simpl. tauto.
  - rewrite sum_stays_on_page. apply list_elem_of_In. simpl. tauto.
  - intros H.
    pose (rt := Demo.host Demo.sum_then_timeout).
    pose (w1 := snd (generate_and_evaluate rt "PROMPT" Demo.start)).
    pose (w2 := snd (show_result rt (VScalar (SInt 60)) w1)).
    pose (w3 := snd (explain_result rt "What is the total revenue?"
                       (VScalar (SInt 60)) w2)).
    apply (H "What is the total revenue?" "PROMPT" Demo.start
             (VScalar (SInt 60)) w1 w2 Demo.timeout w3);
      [vm_compute; reflexivity..|].
    rewrite sum_stays_on_page. apply list_elem_of_In. simpl. tauto.
Qed.

(** C8, amended. When the first call, the evaluation and the display of
    the result succeed and the explanation request raises an exception
    that [except Exception] catches, the run continues with the one error
    suite of the [try] statement, as for every other failure of the suite.
    The result and its visualisation stay on the page; the error message
    and the stack trace are added after them, and no explanation is
    shown. *)
Theorem explanation_failure_is_handled (rt : Runtime)
    (question prompt : string) (w w1 w2 w3 : World) (result : value)
    (e : exn) :
  generate_and_evaluate rt prompt w = (inr result, w1) →
  show_result rt result w1 = (inr tt, w2) →
  explain_result rt question result w2 = (inl e, w3) →
  is_Exception e = true →
  analysis_try rt question prompt w = on_error rt e w3 ∧
  page w3 = page w1 ++ result_elements (w_df w1) result ∧
  StWrite (snapshot (w_df w1) result) ∈ page w3 ∧
  (∃ els, page (snd (analysis_try rt question prompt w)) = page w3 ++ els) ∧
  (st_raises rt (StError "Something went wrong.") = None →
   st_raises rt (StText (format_exc rt e)) = None →
   fst (analysis_try rt question prompt w) = inr tt ∧
   page (snd (analysis_try rt question prompt w))
   = page w1 ++ result_elements (w_df w1) result
     ++ [StError "Something went wrong."; StText (format_exc rt e)]).
Proof.
  intros Hg Hs He Hexn.
  assert (analysis_body rt question prompt w = (inl e, w3)) as Hbody.
  { rewrite analysis_body_stages, bind_run, Hg. unfold present.
    by rewrite bind_run, Hs, bind_run, He. }
  assert (page w3 = page w1 ++ result_elements (w_df w1) result) as Hpage.
  { pose proof (explain_result_page rt question result w2) as Hp.
    rewrite He in Hp. simpl in Hp. rewrite Hp.
    by destruct (show_result_page rt result w1 w2 Hs). }
  rewrite (analysis_try_handler rt question prompt w w3 e Hbody Hexn).
  split_and!.
  - reflexivity.
  - exact Hpage.
  - rewrite Hpage. apply elem_of_app. right.
    apply list_elem_of_In. simpl. tauto.
  - apply page_grows_on_error.
  - intros H1 H2. rewrite on_error_ok by done. split; [reflexivity|].
    simpl. rewrite !page_record, Hpage. by rewrite <- !(assoc_L (++)).
Qed.

Lemma explanation_failure_is_handled_witness :
  fst (analysis_try (Demo.host Demo.sum_then_timeout)
         "What is the total revenue?" "PROMPT" Demo.start) = inr tt.
Proof.
  pose (rt := Demo.host Demo.sum_then_timeout).
  pose (w1 := snd (generate_and_evaluate rt "PROMPT" Demo.start)).
  pose (w2 := snd (show_result rt (VScalar (SInt 60)) w1)).
  pose (w3 := snd (explain_result rt "What is the total revenue?"
                     (VScalar (SInt 60)) w2)).
  destruct (explanation_failure_is_handled rt
              "What is the total revenue?" "PROMPT" Demo.start w1 w2 w3
              (VScalar (SInt 60)) Demo.timeout)
    as (_ & _ & _ & _ & H); [vm_compute; reflexivity..|].
  by apply H.
Defined.

(** * Further properties of the script *)

(** ** Loading *)

Lemma str_drop_app_length (a b : string) :
  str_drop (String.length a) (a +:+ b) = b.
Proof. induction a as [|c a IH]; [by destruct b|]. by rewrite str_app_cons. Qed.

Lemma str_take_drop (n : nat) (s : string) :
  PyStr.take n s +:+ str_drop n s = s.
Proof.
  revert s. induction n as [|n IH]; intros [|c s]; simpl; try done.
  by rewrite str_app_cons, IH.
Qed.

Lemma endswith_spec (suffix s : string) :
  endswith suffix s = true ↔ ∃ stem, s = stem +:+ suffix.
Proof.
  unfold endswith. rewrite andb_true_iff, Nat.leb_le, String.eqb_eq. split.
  - intros [_ H]. set (k := String.length s - String.length suffix) in *.
    exists (PyStr.take k s). rewrite <- H. symmetry. apply str_take_drop.
  - intros [stem ->]. rewrite str_app_length. split; [lia|].
    replace (String.length stem + String.length suffix - String.length suffix)
      with (String.length stem) by lia.
    apply str_drop_app_length.
Qed.

Lemma endswith_same_length (suffix stem t : string) :
  String.length t = String.length suffix →
  endswith suffix (stem +:+ t) = String.eqb t suffix.
Proof.
  intros H. unfold endswith. rewrite str_app_length, H.
  replace (String.length stem + String.length suffix - String.length suffix)
    with (String.length stem) by lia.
  rewrite str_drop_app_length.
  by replace (String.length suffix <=? String.length stem + String.length suffix)
    with true by (symmetry; apply Nat.leb_le; lia).
Qed.

(** X1. [load_file] gives the file to [pd.read_csv] exactly when its name
    ends with [.csv], and to [pd.read_excel] otherwise; what the reader
    returns or raises is the outcome. *)
Theorem load_file_dispatch (pd : Pandas) (f : UploadedFile) :
  ((∃ stem, name f = stem +:+ ".csv") → load_file pd f = read_csv pd f) ∧
  ((¬ ∃ stem, name f = stem +:+ ".csv") → load_file pd f = read_excel pd f).
Proof.
  unfold load_file. destruct (endswith ".csv" (name f)) eqn:E.
  - apply endswith_spec in E. split; [done | by intros []].
  - split; [|done]. intros H%endswith_spec. congruence.
Qed.

Lemma load_file_dispatch_witness :
  load_file (mkPandas (λ _, inr Demo.sales) (λ _, inl Demo.timeout))
            (mkUploadedFile "sales.csv" "region,revenue")
  = inr Demo.sales.
Proof.
  apply (load_file_dispatch
           (mkPandas (λ _, inr Demo.sales) (λ _, inl Demo.timeout))
           (mkUploadedFile "sales.csv" "region,revenue")).
  by exists "sales".
Defined.

(** X2. The suffix test is case-sensitive and looks at the last four
    characters only: a name that ends with [.CSV], [.Csv] or [.xlsx] goes
    to [pd.read_excel], and the bare name [.csv] goes to [pd.read_csv]. *)
Theorem load_file_suffix_cases (pd : Pandas) (stem data : string) :
  load_file pd (mkUploadedFile (stem +:+ ".CSV") data)
  = read_excel pd (mkUploadedFile (stem +:+ ".CSV") data) ∧
  load_file pd (mkUploadedFile (stem +:+ ".Csv") data)
  = read_excel pd (mkUploadedFile (stem +:+ ".Csv") data) ∧
  load_file pd (mkUploadedFile (stem +:+ "xlsx") data)
  = read_excel pd (mkUploadedFile (stem +:+ "xlsx") data) ∧
  load_file pd (mkUploadedFile ".csv" data)
  = read_csv pd (mkUploadedFile ".csv" data).
Proof.
  unfold load_file. simpl.
  by rewrite !endswith_same_length.
Qed.

(** ** More on the schema descriptor *)

(** X3. The descriptor, and with it the prompt built from it, depends on
    the column labels, the column types and the first five rows only: two
    datasets that agree on these give the same descriptor and the same
    prompt, whatever their later rows are. *)
Theorem get_schema_first_five (d d' : DataFrame) :
  df_columns d = df_columns d' →
  df_dtypes d = df_dtypes d' →
  take 5 (df_rows d) = take 5 (df_rows d') →
  get_schema d = get_schema d' ∧
  ∀ rt question,
    build_prompt rt (get_schema d) question
    = build_prompt rt (get_schema d') question.
Proof.
  intros Hc Ht Hr.
  assert (get_schema d = get_schema d') as ->; [|done].
  unfold get_schema, dtypes_to_dict, to_records, head. simpl.
  by rewrite Hc, Ht, Hr.
Qed.

Lemma get_schema_first_five_witness :
  get_schema
    (mkDataFrame ["n"] [Int64]
       [[SInt 1]; [SInt 2]; [SInt 3]; [SInt 4]; [SInt 5]; [SInt 6]])
  = get_schema
      (mkDataFrame ["n"] [Int64]
         [[SInt 1]; [SInt 2]; [SInt 3]; [SInt 4]; [SInt 5]; [SInt 7];
          [SInt 8]]).
Proof.
  by apply (get_schema_first_five
              (mkDataFrame ["n"] [Int64]
                 [[SInt 1]; [SInt 2]; [SInt 3]; [SInt 4]; [SInt 5]; [SInt 6]])
              (mkDataFrame ["n"] [Int64]
                 [[SInt 1]; [SInt 2]; [SInt 3]; [SInt 4]; [SInt 5]; [SInt 7];
                  [SInt 8]])).
Defined.

(** X4. For a dataset whose lengths agree, distinct labels or not, the
    keys of [types] and the keys of every sample record are exactly the
    column labels. *)
Theorem get_schema_keys (d : DataFrame) :
  wf_frame d →
  (∀ c, is_Some (types (get_schema d) !! c) ↔ c ∈ df_columns d) ∧
  (∀ rec, rec ∈ sample_rows (get_schema d) →
          ∀ c, is_Some (rec !! c) ↔ c ∈ df_columns d).
Proof.
  intros [Hty Hrows]. split.
  - intros c. unfold get_schema, dtypes_to_dict. simpl.
    apply py_dict_zip_dom. by rewrite length_fmap.
  - intros rec Hrec c. unfold get_schema, to_records, head in Hrec.
    simpl in Hrec. apply list_elem_of_fmap in Hrec as (r & -> & Hr).
    apply py_dict_zip_dom. apply subseteq_take in Hr.
    by apply (proj1 (Forall_forall _ _) Hrows).
Qed.

Lemma get_schema_keys_witness :
  is_Some (types (get_schema Demo.sales) !! "region") ∧
  ¬ is_Some (types (get_schema Demo.sales) !! "profit").
Proof.
  assert (wf_frame Demo.sales) as Hwf.
  { split; [reflexivity|]. repeat constructor. }
  destruct (get_schema_keys Demo.sales Hwf) as [H _]. split.
  - apply H. apply list_elem_of_In. simpl. tauto.
  - intros Hp%H. apply list_elem_of_In in Hp. simpl in Hp.
    destruct Hp as [Hp|[Hp|[]]]; discriminate Hp.
Defined.

Lemma assign_zip_last {V} (pre post : list string) (k : string)
    (vs : list V) (m : gmap string V) (v : V) :
  k ∉ post → vs !! length pre = Some v →
  foldl assign m (zip (pre ++ k :: post) vs) !! k = Some v.
Proof.
  intros Hk. revert vs m.
  induction pre as [|p pre IH]; intros [|v0 vs] m Hv; simplify_eq/=.
  - rewrite assign_zip_fresh by done. unfold assign. simpl.
    by rewrite lookup_insert_eq.
  - by apply IH.
Qed.

(** X5. When a label occurs several times among the columns, the dicts of
    the descriptor keep the last column of that name: [types] gives its
    type and each sample record gives its cell. *)
Theorem get_schema_last_duplicate (d : DataFrame) (pre post : list string)
    (c : string) :
  df_columns d = pre ++ c :: post → c ∉ post →
  (∀ t, df_dtypes d !! length pre = Some t →
        types (get_schema d) !! c = Some (dtype_str t)) ∧
  (∀ i r x, i < 5 → df_rows d !! i = Some r → r !! length pre = Some x →
            ∃ rec, sample_rows (get_schema d) !! i = Some rec ∧
                   rec !! c = Some x).
Proof.
  intros Hc Hpost. split.
  - intros t Ht. unfold get_schema, dtypes_to_dict, py_dict. simpl.
    rewrite Hc. apply assign_zip_last; [done|].
    by rewrite list_lookup_fmap, Ht.
  - intros i r x Hi Hr Hx. eexists. split.
    + rewrite sample_rows_lookup. case_decide; [|lia]. by rewrite Hr.
    + unfold py_dict. rewrite Hc. by apply assign_zip_last.
Qed.

Lemma get_schema_last_duplicate_witness :
  types (get_schema (mkDataFrame ["a"; "a"] [Int64; Object]
                       [[SInt 1; SStr "x"]])) !! "a"
  = Some "object".
Proof.
  destruct (get_schema_last_duplicate
              (mkDataFrame ["a"; "a"] [Int64; Object] [[SInt 1; SStr "x"]])
              ["a"] [] "a" eq_refl) as [H _].
  - apply not_elem_of_nil.
  - by apply (H Object).
Defined.

(** ** The query prompt *)

Lemma str_app_inv_tail (s s' t : string) :
  s +:+ t = s' +:+ t → s = s'.
Proof.
  intros H.
  assert (String.length s = String.length s') as Hlen.
  { apply (f_equal String.length) in H. rewrite !str_app_length in H. lia. }
  revert s' H Hlen. induction s as [|a s IH]; intros [|a' s'] H Hlen;
    simpl in Hlen; try discriminate Hlen; [done|].
  rewrite !str_app_cons in H. injection H as -> H. f_equal.
  apply IH; [done|]. by injection Hlen.
Qed.

Lemma build_prompt_parts (rt : Runtime) (schema : Schema) (question : string) :
  build_prompt rt schema question
  = prompt_head rt schema +:+ dquote +:+ question +:+ dquote +:+ prompt_rules.
Proof.
  unfold build_prompt, prompt_head. by rewrite !str_app_assoc.
Qed.

(** X6. The query prompt is the schema part, then the question as typed
    between two double quotes, then the fixed rules: the question is
    embedded unchanged whatever it contains, the rules always end the
    prompt, and two different questions never give the same prompt. *)
Theorem build_prompt_question (rt : Runtime) (schema : Schema)
    (question : string) :
  build_prompt rt schema question
  = prompt_head rt schema +:+ dquote +:+ question +:+ dquote +:+ prompt_rules ∧
  occurs (dquote +:+ question +:+ dquote) (build_prompt rt schema question) ∧
  endswith prompt_rules (build_prompt rt schema question) = true ∧
  (∀ question', build_prompt rt schema question
                = build_prompt rt schema question' → question = question').
Proof.
  split_and!.
  - apply build_prompt_parts.
  - exists (prompt_head rt schema), prompt_rules.
    by rewrite build_prompt_parts, !str_app_assoc.
  - apply endswith_spec.
    exists (prompt_head rt schema +:+ dquote +:+ question +:+ dquote).
    by rewrite build_prompt_parts, !str_app_assoc.
  - intros question' H. rewrite !build_prompt_parts in H.
    apply (inj (String.app _)) in H. apply (inj (String.app _)) in H.
    by apply str_app_inv_tail in H.
Qed.

(** ** The answer of the model *)

Lemma lstrip_id (s : string) :
  (∀ c t, s = String c t → PyStr.isspace c = false) → PyStr.lstrip s = s.
Proof. intros H. destruct s as [|c t]; [done|]. simpl. by rewrite (H c t). Qed.

Lemma all_space_last (s t : string) (c : ascii) :
  PyStr.all_space s = true → s = t +:+ String c EmptyString →
  PyStr.isspace c = true.
Proof.
  revert t. induction s as [|a s IH]; intros t Hs H.
  - destruct t; rewrite ?str_app_nil_l, ?str_app_cons in H; discriminate H.
  - simpl in Hs. apply andb_true_iff in Hs as [Ha Hs]. destruct t as [|b t].
    + rewrite str_app_nil_l in H. by injection H as -> _.
    + rewrite str_app_cons in H. injection H as _ H. by apply (IH t).
Qed.

Lemma last_exists (a : ascii) (s : string) :
  ∃ t c, String a s = t +:+ String c EmptyString.
Proof.
  revert a. induction s as [|b s IH]; intros a.
  - by exists EmptyString, a.
  - destruct (IH b) as (t & c & H). exists (String a t), c.
    by rewrite str_app_cons, <- H.
Qed.

Lemma rstrip_id (s : string) :
  (∀ t c, s = t +:+ String c EmptyString → PyStr.isspace c = false) →
  PyStr.rstrip s = s.
Proof.
  induction s as [|a s IH]; intros H; [done|].
  change (PyStr.rstrip (String a s))
    with (if PyStr.all_space (String a s) then EmptyString
          else String a (PyStr.rstrip s)).
  destruct (PyStr.all_space (String a s)) eqn:E.
  - destruct (last_exists a s) as (t & c & Hl).
    pose proof (all_space_last _ _ _ E Hl) as Hc.
    rewrite (H t c Hl) in Hc. discriminate Hc.
  - f_equal. apply IH. intros t c ->. apply (H (String a t) c).
    by rewrite str_app_cons.
Qed.

Lemma strip_trimmed (s : string) : trimmed (PyStr.strip s).
Proof. destruct (strip_spec s) as (l & r & _ & _ & _ & H1 & H2). by split. Qed.

Lemma strip_of_trimmed (s : string) : trimmed s → PyStr.strip s = s.
Proof.
  intros [H1 H2]. unfold PyStr.strip. rewrite lstrip_id by done.
  by apply rstrip_id.
Qed.

(** X7. What [call_bedrock] returns has no white space at its start or at
    its end, so stripping it again changes nothing. *)
Theorem call_bedrock_trimmed (rt : Runtime) (prompt : string) (w : World)
    (s : string) :
  fst (call_bedrock rt prompt w) = inr s →
  trimmed s ∧ PyStr.strip s = s.
Proof.
  rewrite call_bedrock_run. simpl. unfold and_then.
  destruct (invoke_model _ _ _ _) as [e|resp]; [done|].
  intros (content & segment & text & _ & _ & _ & ->)%read_answer_ok.
  split; [apply strip_trimmed | apply strip_of_trimmed, strip_trimmed].
Qed.

Lemma call_bedrock_trimmed_witness :
  PyStr.strip "df.head()" = "df.head()".
Proof.
  apply (call_bedrock_trimmed
           (Demo.host [inr (Demo.text_answer "  df.head()  ")])
           "Which region sells most?" Demo.start "df.head()").
  reflexivity.
Defined.

(** X8. Only the first content segment of an answer is read: two answers
    whose [content] lists start with the same segment give the same
    outcome, whatever their later segments and their other members are. *)
Theorem read_answer_first_segment (kv kv' : list (string * json))
    (segment : json) (segments segments' : list json) :
  obj_get "content" kv = Some (JArr (segment :: segments)) →
  obj_get "content" kv' = Some (JArr (segment :: segments')) →
  read_answer (JObj kv) = read_answer (JObj kv') ∧
  read_answer (JObj kv) = and_then (getitem_key segment "text") call_strip.
Proof.
  intros H H'. unfold read_answer. simpl. by rewrite H, H'.
Qed.

Lemma read_answer_first_segment_witness :
  read_answer (Demo.text_answer " df ")
  = read_answer
      (JObj [("content",
              JArr [JObj [("type", JStr "text"); ("text", JStr " df ")];
                    JObj [("type", JStr "text"); ("text", JStr "df.pop('x')")]]);
             ("stop_reason", JStr "end_turn")]).
Proof.
  apply (read_answer_first_segment
           [("type", JStr "message"); ("role", JStr "assistant");
            ("content",
             JArr [JObj [("type", JStr "text"); ("text", JStr " df ")]])]
           [("content",
             JArr [JObj [("type", JStr "text"); ("text", JStr " df ")];
                   JObj [("type", JStr "text"); ("text", JStr "df.pop('x')")]]);
            ("stop_reason", JStr "end_turn")]
           (JObj [("type", JStr "text"); ("text", JStr " df ")]) []
           [JObj [("type", JStr "text"); ("text", JStr "df.pop('x')")]]);
    reflexivity.
Defined.

(** X9. An answer that is not of the expected shape makes [call_bedrock]
    raise: a [KeyError] when the answer has no [content] or its first
    segment has no [text], an [IndexError] when [content] is an empty
    list, an [AttributeError] when the text is not a string, and a
    [TypeError] when the answer is not an object. *)
Theorem read_answer_errors :
  (∀ kv, obj_get "content" kv = None →
         ∃ e, read_answer (JObj kv) = inl e ∧ exn_cls e = KeyError) ∧
  (∀ kv, obj_get "content" kv = Some (JArr []) →
         ∃ e, read_answer (JObj kv) = inl e ∧ exn_cls e = IndexError) ∧
  (∀ kv skv segments,
     obj_get "content" kv = Some (JArr (JObj skv :: segments)) →
     obj_get "text" skv = None →
     ∃ e, read_answer (JObj kv) = inl e ∧ exn_cls e = KeyError) ∧
  (∀ kv skv segments v,
     obj_get "content" kv = Some (JArr (JObj skv :: segments)) →
     obj_get "text" skv = Some v → (∀ s, v ≠ JStr s) →
     ∃ e, read_answer (JObj kv) = inl e ∧ exn_cls e = AttributeError) ∧
  (∀ resp, (∀ kv, resp ≠ JObj kv) →
           ∃ e, read_answer resp = inl e ∧ exn_cls e = TypeError).
Proof.
  unfold read_answer. split_and!.
  - intros kv H. simpl. rewrite H. by eexists.
  - intros kv H. simpl. rewrite H. by eexists.
  - intros kv skv segments H Ht. simpl. rewrite H. simpl. rewrite Ht.
    by eexists.
  - intros kv skv segments v H Ht Hv. simpl. rewrite H. simpl. rewrite Ht.
    simpl. destruct v; try (by eexists). by destruct (Hv s).
  - intros resp H. destruct resp; try (by eexists). by destruct (H kv).
Qed.

Lemma read_answer_errors_witness :
  ∃ e, read_answer (JObj [("message", JStr "Too many requests")]) = inl e ∧
       exn_cls e = KeyError.
Proof.
  destruct read_answer_errors as (H & _).
  by apply (H [("message", JStr "Too many requests")]).
Defined.

(** ** More on the denylist *)

Lemma occurs_trans (a b c : string) : occurs a b → occurs b c → occurs a c.
Proof.
  intros (p & q & ->) (p' & q' & ->).
  exists (p' +:+ p), (q +:+ q'). by rewrite !str_app_assoc.
Qed.

(** X10. Rejection is inherited by every text that contains a rejected
    text: once a label, a literal or a sub-expression holds a denylisted
    substring, every expression built around it is rejected as well, in
    the world as it was. *)
Theorem has_banned_containment (code code' : string) :
  has_banned code → occurs code code' →
  has_banned code' ∧
  ∀ rt w, safe_execute rt code' w = (inl unsafe, w).
Proof.
  intros (b & Hb & Hocc) Hin.
  assert (has_banned code') as H.
  { exists b. split; [done|]. by apply (occurs_trans b code code'). }
  split; [done|]. intros rt w. by apply safe_execute_banned.
Qed.

Lemma has_banned_containment_witness :
  safe_execute (Demo.host []) "df['evaluation_score'].mean()" Demo.start
  = (inl unsafe, Demo.start).
Proof.
  apply (has_banned_containment "evaluation_score"
           "df['evaluation_score'].mean()").
  - apply any_banned_spec. reflexivity.
  - by exists "df['", "'].mean()".
Defined.

Lemma requests_record (ev : event) (w : World) :
  requests (record ev w) =
  requests w ++ match ev with EvInvoke _ b => [b] | _ => [] end.
Proof.
  unfold requests, record. simpl. rewrite omap_app. f_equal. by destruct ev.
Qed.

Lemma requests_effects (d : DataFrame) (w : World) (code : string)
    (evs : list effect) :
  requests (mkWorld d (w_log w ++ EvEval code :: (event_of <$> evs)))
  = requests w
    ++ omap (λ ev, match ev with EvInvoke _ b => Some b | _ => None end)
            (event_of <$> evs).
Proof. unfold requests. simpl. by rewrite omap_app. Qed.

Lemma quiet_effects (evs : list effect) :
  fx_invocations evs = 0 →
  omap (λ ev, match ev with EvInvoke _ b => Some b | _ => None end)
       (event_of <$> evs) = [].
Proof.
  unfold fx_invocations. induction evs as [|[m b|e] evs IH]; [done| |].
  - rewrite fmap_cons. cbn [event_of].
    rewrite filter_cons_True by done. discriminate.
  - rewrite fmap_cons. cbn [event_of].
    rewrite filter_cons_False by done. exact IH.
Qed.



(** ** More on the explanation prompt *)

Lemma take_all (n : nat) (s : string) :
  String.length s ≤ n → PyStr.take n s = s.
Proof.
  revert s. induction n as [|n IH]; intros [|a s] H; simpl in *; try done.
  - lia.
  - f_equal. apply IH. lia.
Qed.

Lemma take_app_le (n : nat) (s t : string) :
  n ≤ String.length s → PyStr.take n (s +:+ t) = PyStr.take n s.
Proof.
  revert s. induction n as [|n IH]; intros s H; [reflexivity|].
  destruct s as [|a s]; simpl in H; [lia|].
  rewrite str_app_cons. simpl. f_equal. apply IH. lia.
Qed.

(** X12. A result whose string form has at most 1000 characters enters
    the explanation prompt whole; of a longer one everything after the
    first 1000 characters is lost, so two results that agree on the first
    1000 characters of their string forms lead to the same remote call. *)
Theorem explain_prompt_tail (rt : Runtime) (question : string) :
  (∀ s, String.length s ≤ 1000 →
        explain_prompt question s = explain_intro question +:+ s +:+ newline) ∧
  (∀ s tail, 1000 ≤ String.length s →
             explain_prompt question (s +:+ tail) = explain_prompt question s) ∧
  (∀ result result' w,
     PyStr.take 1000 (py_str rt (snapshot (w_df w) result))
     = PyStr.take 1000 (py_str rt (snapshot (w_df w) result')) →
     explain_result rt question result w = explain_result rt question result' w).
Proof.
  split_and!.
  - intros s H. unfold explain_prompt. by rewrite (take_all 1000 s H).
  - intros s tail H. unfold explain_prompt. by rewrite (take_app_le 1000 s tail H).
  - intros result result' w H. rewrite !explain_result_run.
    unfold explain_prompt. by rewrite H.
Qed.

Lemma explain_prompt_tail_witness :
  explain_prompt "What is the total revenue?" "60"
  = explain_intro "What is the total revenue?" +:+ "60" +:+ newline.
Proof.
  destruct (explain_prompt_tail (Demo.host []) "What is the total revenue?")
    as (H & _).
  apply (H "60"). apply Nat.leb_le. reflexivity.
Defined.

(** ** Steps that only add to the page *)

Lemma filter_invoke_emitted (els : list element) :
  filter (λ ev, is_invoke ev = true) (EvEmit <$> els) = [].
Proof.
  induction els as [|e els IH]; [done|]. simpl. rewrite filter_cons.
  case_decide; [done | exact IH].
Qed.

Lemma page_emitted (els : list element) :
  omap (λ ev, match ev with EvEmit e => Some e | _ => None end)
       (EvEmit <$> els) = els.
Proof. induction els as [|e els IH]; [done|]. simpl. f_equal. exact IH. Qed.

Lemma emitted_frame (w w' : World) (els : list element) :
  w_log w' = w_log w ++ (EvEmit <$> els) →
  invocations w' = invocations w ∧ evaluated w' = evaluated w ∧
  requests w' = requests w ∧ page w' = page w ++ els.
Proof.
  intros H. unfold invocations, evaluated, requests, page. rewrite H.
  rewrite filter_app, length_app, !omap_app.
  rewrite filter_invoke_emitted, page_emitted.
  assert (omap (λ ev, match ev with EvEval c => Some c | _ => None end)
               (EvEmit <$> els) = []) as ->
    by (clear H; induction els as [|? ? IH]; [done | exact IH]).
  assert (omap (λ ev, match ev with EvInvoke _ b => Some b | _ => None end)
               (EvEmit <$> els) = []) as ->
    by (clear H; induction els as [|? ? IH]; [done | exact IH]).
  rewrite !(right_id_L [] (++)). simpl. split_and!; [lia|done..].
Qed.

Section EmitsOnly.

Context (rt : Runtime).

Lemma emits_only_bind {A B} (m : M A) (f : A → M B) :
  emits_only m → (∀ a, emits_only (f a)) → emits_only (m ≫= f).
Proof.
  intros Hm Hf w. rewrite bind_run. destruct (Hm w) as [Hd [els Hl]].
  destruct (m w) as [[e|a] w']; simpl in *; [by eauto|].
  destruct (Hf a w') as [Hd' [els' Hl']]. split; [congruence|].
  exists (els ++ els'). by rewrite Hl', Hl, fmap_app, <- (assoc_L (++)).
Qed.

Lemma emits_only_ret {A} (a : A) : emits_only (mret a : M A).
Proof. intros w. split; [done|]. exists []. simpl. by rewrite (right_id_L [] (++)). Qed.

Lemma emits_only_st (e : element) : emits_only (st rt e).
Proof.
  intros w. rewrite st_run. destruct (st_raises rt e); simpl.
  - split; [done|]. exists []. simpl. by rewrite (right_id_L [] (++)).
  - split; [done|]. by exists [e].
Qed.

Lemma emits_only_on_error (e : exn) : emits_only (on_error rt e).
Proof.
  apply emits_only_bind; [apply emits_only_st | intros _; apply emits_only_st].
Qed.

Lemma emits_only_show_result (result : value) :
  emits_only (show_result rt result).
Proof.
  assert (∀ v, emits_only (st_write rt v)) as Hw.
  { intros v w. rewrite st_write_run. apply emits_only_st. }
  assert (∀ v, emits_only (auto_visualize rt v)) as Hv.
  { intros v w. destruct (auto_visualize_run rt v w) as [[e ->]| ->]; simpl.
    - split; [done|]. exists []. simpl. by rewrite (right_id_L [] (++)).
    - split; [done|]. by eexists [_]. }
  unfold show_result.
  apply emits_only_bind; [apply emits_only_st | intros _].
  apply emits_only_bind; [apply Hw | intros _].
  apply emits_only_bind; [apply Hw | intros _].
  apply emits_only_bind; [apply Hw | intros _].
  apply emits_only_bind; [apply Hv | intros _].
  apply Hw.
Qed.

Lemma sends_of_emits_only {A} (m : M A) : emits_only m → sends [] m.
Proof.
  intros H w. destruct (H w) as [_ [els Hl]].
  destruct (emitted_frame w _ els Hl) as (_ & _ & -> & _).
  by rewrite (right_id_L [] (++)).
Qed.

Lemma sends_bind {A B} (l : list json) (m : M A) (f : A → M B) :
  sends l m → (∀ a, sends [] (f a)) → sends l (m ≫= f).
Proof.
  intros Hm Hf w. rewrite bind_run. specialize (Hm w).
  destruct (m w) as [[e|a] w']; simpl in *; [done|].
  by rewrite (Hf a w'), (right_id_L [] (++)).
Qed.

Lemma sends_call_bedrock (prompt : string) :
  sends [request_body prompt] (call_bedrock rt prompt).
Proof. intros w. rewrite call_bedrock_run. simpl. by rewrite requests_record. Qed.

(** The requests of the first stage: the query prompt, then whatever the
    evaluation itself sent. *)
Lemma generate_and_evaluate_requests (prompt : string) (w : World) :
  ∃ rest,
    requests (snd (generate_and_evaluate rt prompt w))
    = requests w ++ request_body prompt :: rest ∧
    (eval_invokes_nothing rt → rest = []).
Proof.
  unfold generate_and_evaluate. rewrite bind_run, call_bedrock_run.
  destruct (and_then _ read_answer) as [e|ai_code].
  { exists []. cbn [snd]. by rewrite requests_record. }
  cbv beta iota. rewrite bind_run, st_run.
  destruct (st_raises rt (StExpander _)).
  { exists []. cbn [snd]. by rewrite requests_record. }
  cbv beta iota. rewrite bind_run, st_run.
  destruct (st_raises rt (StCode _ _)).
  { exists []. cbn [snd]. rewrite !requests_record. simpl.
    by rewrite (right_id_L [] (++)). }
  cbv beta iota.
  destruct (has_banned_dec ai_code) as [Hb|Hn].
  - exists []. rewrite safe_execute_banned by done. cbn [snd].
    rewrite !requests_record. simpl.
    by rewrite !(right_id_L [] (++)).
  - rewrite safe_execute_accepted, py_eval_run by done. cbn [snd].
    match goal with
    | |- context [mkWorld ?d (w_log ?W ++ EvEval ai_code :: (event_of <$> ?evs))] =>
        exists (omap (λ ev, match ev with
                            | EvInvoke _ b => Some b
                            | _ => None
                            end) (event_of <$> evs));
        rewrite (requests_effects d W ai_code evs)
    end.
    rewrite !requests_record. simpl.
    rewrite !(right_id_L [] (++)), <- (assoc_L (++)).
    split; [done|]. intros Hq. apply quiet_effects, Hq.
Qed.

(** The requests of the rest of the suite: none until the value is
    displayed, then the one explanation request. *)
Lemma present_requests (question : string) (result : value) (w1 : World) :
  (∃ tail, requests (snd (present rt question result w1))
           = requests w1 ++ tail) ∧
  (∀ w2, show_result rt result w1 = (inr tt, w2) →
     ∃ s, requests (snd (present rt question result w1))
          = requests w1 ++ [request_body (explain_prompt question s)]).
Proof.
  pose proof (sends_of_emits_only _ (emits_only_show_result result) w1)
    as Hshow.
  rewrite (right_id_L [] (++)) in Hshow.
  assert (∀ w2 u, show_result rt result w1 = (inr u, w2) →
            requests (snd (present rt question result w1))
            = requests w1
              ++ [request_body
                    (explain_prompt question
                       (py_str rt (snapshot (w_df w2) result)))]) as Hok.
  { intros w2 u Hs. unfold present. rewrite bind_run, Hs. cbv beta iota.
    rewrite Hs in Hshow. simpl in Hshow.
    rewrite bind_run, explain_result_run, call_bedrock_run.
    destruct (and_then _ read_answer) as [e|s]; simpl.
    - by rewrite requests_record, Hshow.
    - pose proof (sends_of_emits_only _ (emits_only_st (StInfo s))) as Hinfo.
      rewrite Hinfo, requests_record, Hshow.
      by rewrite (right_id_L [] (++)). }
  split.
  - destruct (show_result rt result w1) as [[e|u] w2] eqn:Hs.
    + exists []. unfold present. rewrite bind_run, Hs. simpl.
      simpl in Hshow. by rewrite (right_id_L [] (++)).
    + eexists. by apply (Hok w2 u).
  - intros w2 Hs. eexists. by apply (Hok w2 tt).
Qed.

(** The error suite, and giving up, send nothing. *)
Lemma try_tail_requests {A} (body : M A) (handler : exn → M A) (w : World) :
  (∀ e, emits_only (handler e)) →
  requests (snd (try_except body handler w)) = requests (snd (body w)).
Proof.
  intros Hh. unfold try_except. destruct (body w) as [[e|a] w']; [|done].
  destruct (is_Exception e); [|done]. simpl.
  rewrite (sends_of_emits_only _ (Hh e) w'). by rewrite (right_id_L [] (++)).
Qed.

End EmitsOnly.

(** ** More on the handler *)

Lemma call_bedrock_world (rt : Runtime) (prompt : string) (w w1 : World)
    (r : exn + string) :
  call_bedrock rt prompt w = (r, w1) →
  w1 = record (EvInvoke MODEL_ID (request_body prompt)) w.
Proof. rewrite call_bedrock_run. by intros [= _ <-]. Qed.

(** X13. When the generated text contains a denylisted substring (and the
    Streamlit calls involved do not raise), the text is still shown to the
    user in the code panel; then the error message and the stack trace of
    the rejection follow.  Nothing is evaluated, the dataset is as before
    and no second request is sent. *)
Theorem rejected_code_is_shown (rt : Runtime) (question prompt code : string)
    (w w1 : World) :
  call_bedrock rt prompt w = (inr code, w1) →
  has_banned code →
  st_raises rt (StExpander "🧠 AI-Generated Pandas Code") = None →
  st_raises rt (StCode code "python") = None →
  st_raises rt (StError "Something went wrong.") = None →
  st_raises rt (StText (format_exc rt unsafe)) = None →
  fst (analysis_try rt question prompt w) = inr tt ∧
  page (snd (analysis_try rt question prompt w))
  = page w ++ [StExpander "🧠 AI-Generated Pandas Code"; StCode code "python"]
      ++ error_elements rt unsafe ∧
  evaluated (snd (analysis_try rt question prompt w)) = evaluated w ∧
  w_df (snd (analysis_try rt question prompt w)) = w_df w ∧
  requests (snd (analysis_try rt question prompt w))
  = requests w ++ [request_body prompt].
Proof.
  intros H1 Hb Hs1 Hs2 Hs3 Hs4.
  pose proof (call_bedrock_world rt prompt w w1 _ H1) as Hw1.
  assert (analysis_body rt question prompt w
          = (inl unsafe,
             record (EvEmit (StCode code "python"))
               (record (EvEmit (StExpander "🧠 AI-Generated Pandas Code")) w1)))
    as Hbody.
  { unfold analysis_body. rewrite bind_run, H1. cbv beta iota.
    rewrite bind_run, st_run, Hs1. cbv beta iota.
    rewrite bind_run, st_run, Hs2. cbv beta iota.
    by rewrite bind_run, safe_execute_banned. }
  rewrite (analysis_try_handler rt question prompt w _ unsafe Hbody eq_refl).
  rewrite on_error_ok by done. subst w1. unfold error_elements. simpl.
  rewrite !page_record, !evaluated_record, !requests_record. simpl.
  rewrite !(right_id_L [] (++)), <- !(assoc_L (++)). by split_and!.
Qed.

Lemma rejected_code_is_shown_witness :
  page (snd (analysis_try (Demo.host Demo.unsafe_answers)
               "How many columns?" "PROMPT" Demo.start))
  = [StExpander "🧠 AI-Generated Pandas Code";
     StCode "df.columns.__len__()" "python";
     StError "Something went wrong.";
     StText "Traceback (most recent call last): Unsafe code detected"].
Proof.
  pose (rt := Demo.host Demo.unsafe_answers).
  destruct (rejected_code_is_shown rt "How many columns?" "PROMPT"
              "df.columns.__len__()" Demo.start
              (snd (call_bedrock rt "PROMPT" Demo.start)))
    as (_ & H & _).
  - by vm_compute.
  - apply any_banned_spec. reflexivity.
  - reflexivity.
  - reflexivity.
  - reflexivity.
  - reflexivity.
  - exact H.
Defined.

(** X14. When the first remote call raises an exception that
    [except Exception] catches (and the two Streamlit calls of the error
    suite do not raise), the run ends normally with the error message and
    the stack trace as the only additions to the page; nothing is
    evaluated and the request is not repeated. *)
Theorem generation_failure_page (rt : Runtime) (question prompt : string)
    (w w1 : World) (e : exn) :
  call_bedrock rt prompt w = (inl e, w1) →
  is_Exception e = true →
  st_raises rt (StError "Something went wrong.") = None →
  st_raises rt (StText (format_exc rt e)) = None →
  fst (analysis_try rt question prompt w) = inr tt ∧
  page (snd (analysis_try rt question prompt w))
  = page w ++ error_elements rt e ∧
  evaluated (snd (analysis_try rt question prompt w)) = evaluated w ∧
  w_df (snd (analysis_try rt question prompt w)) = w_df w ∧
  requests (snd (analysis_try rt question prompt w))
  = requests w ++ [request_body prompt].
Proof.
  intros H1 He Hs3 Hs4.
  pose proof (call_bedrock_world rt prompt w w1 _ H1) as Hw1.
  assert (analysis_body rt question prompt w = (inl e, w1)) as Hbody.
  { unfold analysis_body. by rewrite bind_run, H1. }
  rewrite (analysis_try_handler rt question prompt w _ e Hbody He).
  rewrite on_error_ok by done. subst w1. unfold error_elements. simpl.
  rewrite !page_record, !evaluated_record, !requests_record. simpl.
  rewrite !(right_id_L [] (++)), <- !(assoc_L (++)). by split_and!.
Qed.

Lemma generation_failure_page_witness :
  page (snd (analysis_try (Demo.host [inl Demo.timeout])
               "How many columns?" "PROMPT" Demo.start))
  = [StError "Something went wrong.";
     StText "Traceback (most recent call last): Read timeout on endpoint"].
Proof.
  pose (rt := Demo.host [inl Demo.timeout]).
  destruct (generation_failure_page rt "How many columns?" "PROMPT"
              Demo.start (snd (call_bedrock rt "PROMPT" Demo.start))
              Demo.timeout)
    as (_ & H & _); [by vm_compute | reflexivity..|exact H].
Defined.

(** X15. What leaves the [try] statement as an exception: an exception of
    the suite that is not an [Exception] (a [KeyboardInterrupt], a
    [SystemExit]) passes through, with no error message shown; apart from
    that only an exception raised by the error suite's own Streamlit calls
    can leave it. *)
Theorem analysis_try_escapes (rt : Runtime) (question prompt : string)
    (w : World) :
  (∀ e w', analysis_body rt question prompt w = (inl e, w') →
           is_Exception e = false →
           analysis_try rt question prompt w = (inl e, w')) ∧
  (∀ e, fst (analysis_try rt question prompt w) = inl e →
     (is_Exception e = false ∧
      fst (analysis_body rt question prompt w) = inl e) ∨
     (∃ e0, fst (analysis_body rt question prompt w) = inl e0 ∧
            is_Exception e0 = true ∧
            (st_raises rt (StError "Something went wrong.") = Some e ∨
             st_raises rt (StText (format_exc rt e0)) = Some e))).
Proof.
  unfold analysis_try, try_except. split.
  - intros e w' H He. by rewrite H, He.
  - intros e. destruct (analysis_body rt question prompt w) as [[e0|u] w'];
      [|done].
    destruct (is_Exception e0) eqn:He0.
    + intros H. right. exists e0. split_and!; [done..|].
      unfold on_error in H. rewrite bind_run, st_run in H.
      destruct (st_raises rt (StError _)) as [x|] eqn:E1.
      * left. simpl in H. congruence.
      * right. cbv beta iota in H. rewrite st_run in H.
        destruct (st_raises rt (StText _)) as [x|]; simpl in H; congruence.
    + simpl. intros [= ->]. by left.
Qed.

Lemma analysis_try_escapes_witness :
  fst (analysis_try (Demo.host [inl (Exn KeyboardInterrupt EmptyString)])
         "How many columns?" "PROMPT" Demo.start)
  = inl (Exn KeyboardInterrupt EmptyString).
Proof.
  set (rt := Demo.host [inl (Exn KeyboardInterrupt EmptyString)]).
  destruct (analysis_try_escapes rt "How many columns?" "PROMPT" Demo.start)
    as [H _].
  rewrite (H (Exn KeyboardInterrupt EmptyString)
             (snd (analysis_body rt "How many columns?" "PROMPT" Demo.start)));
    [reflexivity | by vm_compute | reflexivity].
Defined.

Lemma guard_closed (run_btn : bool) (question : string) :
  run_btn = false ∨ question = EmptyString →
  run_btn && nonempty question = false.
Proof. intros [->| ->]; [done | by destruct run_btn]. Qed.

Lemma debug_question (question : string) :
  (if nonempty question then question else EmptyString) = question.
Proof. by destruct question. Qed.

Lemma emits_only_script_off (rt : Runtime) (question : string)
    (d : DataFrame) :
  emits_only
    (st rt (StSubheader "📄 Dataset Preview");;
     st rt (StDataframe d);;
     st rt (StSubheader "🤖 AI Assistant");;
     (mret tt : M unit);;
     st rt (StExpander "⚙️ Debug Prompt");;
     st rt (StCode (build_prompt rt (get_schema d) question) "python")).
Proof.
  apply emits_only_bind; [apply emits_only_st | intros _].
  apply emits_only_bind; [apply emits_only_st | intros _].
  apply emits_only_bind; [apply emits_only_st | intros _].
  apply emits_only_bind; [apply emits_only_ret | intros _].
  apply emits_only_bind; [apply emits_only_st | intros _].
  apply emits_only_st.
Qed.






